(** * fake_web_events.simulation: a shallow embedding of the simulation engine

    The development follows [src/fake_web_events/simulation.py].  Python
    floats are read as exact rationals ([Q]), datetimes as integer
    microseconds ([Z]), and every random draw is an explicit input, so that
    each function of the class is a pure, executable function here. *)

From Stdlib Require Import ZArith QArith Qround String Ascii List Lia Bool.
From Stdlib Require Import DecimalString Lqa.
From stdpp Require Import base gmap strings list.
Import ListNotations.

#[local] Set Warnings "-clear-no-such-hyp".

Local Open Scope string_scope.
Local Open Scope list_scope.
Local Open Scope Z_scope.

(** ** Exceptions and the error monad *)

Module Py.

Inductive exn : Type :=
| AssertionError (msg : string)
| ZeroDivisionError
| KeyError (key : Z)
| ValueError (msg : string)
| TypeError (msg : string).

Inductive result (A : Type) : Type :=
| Ok (a : A)
| Raise (e : exn).
Arguments Ok {A} a.
Arguments Raise {A} e.

Definition bind {A B} (c : result A) (k : A -> result B) : result B :=
  match c with
  | Ok a => k a
  | Raise e => Raise e
  end.

Definition raises {A} (c : result A) : Prop :=
  match c with Ok _ => False | Raise _ => True end.

Definition returns {A} (c : result A) : Prop :=
  match c with Ok _ => True | Raise _ => False end.

End Py.
Import Py.

#[global] Instance result_bind : MBind result := fun A B k c => Py.bind c k.
#[global] Instance result_ret : MRet result := fun A a => Ok a.

(** ** Numbers as Python computes them *)

(** [int(x)] on a float: truncation toward zero. *)
Definition py_int (x : Q) : Z :=
  if Qle_bool 0 x then Qfloor x else Qceiling x.

(** [x % 1] on a float: the remainder has the sign of the divisor. *)
Definition py_mod1 (x : Q) : Q := x - inject_Z (Qfloor x).

(** [x < y] on floats. *)
Definition Qlt_bool (x y : Q) : bool := negb (Qle_bool y x).

(** [a / b] on numbers: division by zero raises. *)
Definition py_div (a b : Q) : result Q :=
  if Qeq_bool b 0 then Raise ZeroDivisionError else Ok (a / b)%Q.

(** datetime._divide_and_round: nearest integer to [a / b], ties to even. *)
Definition divide_and_round (a b : Z) : Z :=
  let q := a / b in
  let r := 2 * (a mod b) in
  let greater_than_half := if 0 <? b then b <? r else r <? b in
  if greater_than_half || ((r =? b) && (q mod 2 =? 1)) then q + 1 else q.

(** ** Simulated time

    A naive [datetime] is the number of microseconds since the first instant
    the type can hold, a [timedelta] a signed number of microseconds. *)

Definition us_per_second : Z := 1000000.
Definition us_per_hour : Z := 3600 * us_per_second.
Definition us_per_day : Z := 24 * us_per_hour.

(** [timedelta(seconds=n)] for an integer [n]. *)
Definition timedelta_seconds (n : Z) : Z := n * us_per_second.

(** [timedelta(days=d)]: rounded to the microsecond. *)
Definition timedelta_days (d : Q) : Z :=
  divide_and_round (Qnum d * us_per_day) (Z.pos (Qden d)).

(** [ratio * delta] for a float [ratio] (timedelta.__rmul__). *)
Definition timedelta_rmul (ratio : Q) (delta : Z) : Z :=
  divide_and_round (delta * Qnum ratio) (Z.pos (Qden ratio)).

(** [dt.hour]. *)
Definition hour_of (t : Z) : Z := (t / us_per_hour) mod 24.

(** ** Python values and the JSON encoder

    The values a session record can hold.  A [str] is a sequence of code
    points below 256; a float carries its [repr]; an object of any other
    class is known by the qualified name of its class. *)

Module Json.

Record date : Type := { year : Z; month : Z; day : Z }.

Record datetime : Type :=
  { on : date; hour : Z; minute : Z; second : Z; microsecond : Z }.

#[local] Unset Elimination Schemes.
Inductive pyval : Type :=
| PNone
| PBool (b : bool)
| PInt (n : Z)
| PFloat (repr : string)
| PStr (s : string)
| PList (items : list pyval)
| PDict (items : list (string * pyval))
| PDatetime (d : datetime)
| PDate (d : date)
| PObject (cls : string).
#[local] Set Elimination Schemes.

(** [str(type(obj))], as the format [%s] prints a class. *)
Definition class_name (v : pyval) : string :=
  match v with
  | PNone => "NoneType"
  | PBool _ => "bool"
  | PInt _ => "int"
  | PFloat _ => "float"
  | PStr _ => "str"
  | PList _ => "list"
  | PDict _ => "dict"
  | PDatetime _ => "datetime.datetime"
  | PDate _ => "datetime.date"
  | PObject cls => cls
  end.

Definition type_str (v : pyval) : string :=
  "<class '" +:+ class_name v +:+ "'>".

(** Decimal digits of an integer, and the [%0wd] format. *)
Definition dec (n : Z) : string := NilZero.string_of_int (Z.to_int n).

Fixpoint zeros (k : nat) : string :=
  match k with
  | O => EmptyString
  | S k' => String "0"%char (zeros k')
  end.

Definition pad (w : nat) (n : Z) : string :=
  let s := dec n in zeros (w - String.length s) +:+ s.

(** [date.isoformat()] and [datetime.isoformat()] of a naive datetime. *)
Definition date_isoformat (d : date) : string :=
  pad 4 (year d) +:+ "-" +:+ pad 2 (month d) +:+ "-" +:+ pad 2 (day d).

Definition datetime_isoformat (t : datetime) : string :=
  date_isoformat (on t) +:+ "T" +:+
  pad 2 (hour t) +:+ ":" +:+ pad 2 (minute t) +:+ ":" +:+ pad 2 (second t) +:+
  (if microsecond t =? 0 then EmptyString else "." +:+ pad 6 (microsecond t)).

(** json.encoder.py_encode_basestring_ascii *)
Definition quote : ascii := "034"%char.
Definition backslash : ascii := "092"%char.

Definition hex_digit (n : N) : ascii :=
  ascii_of_N (if (n <? 10)%N then 48 + n else 87 + n)%N.

Definition escape_char (c : ascii) : string :=
  let n := N_of_ascii c in
  if (n =? 34)%N then String backslash (String quote EmptyString)
  else if (n =? 92)%N then String backslash (String backslash EmptyString)
  else if (n =? 10)%N then String backslash "n"
  else if (n =? 13)%N then String backslash "r"
  else if (n =? 9)%N then String backslash "t"
  else if (n =? 8)%N then String backslash "b"
  else if (n =? 12)%N then String backslash "f"
  else if ((n <? 32) || (126 <? n))%N then
    String backslash ("u00" +:+
      String (hex_digit (n / 16)) (String (hex_digit (n mod 16)) EmptyString))
  else String c EmptyString.

Fixpoint escape (s : string) : string :=
  match s with
  | EmptyString => EmptyString
  | String c s' => escape_char c +:+ escape s'
  end.

Definition encode_str (s : string) : string :=
  String quote (escape s) +:+ String quote EmptyString.

Fixpoint join (sep : string) (l : list string) : string :=
  match l with
  | [] => EmptyString
  | [x] => x
  | x :: l' => x +:+ sep +:+ join sep l'
  end.

(** json.dumps(v, default=hook) with the other options at their defaults.
    The hook is called on every value the encoder does not know, and what it
    returns (a [str] for the hook of this module) is encoded in its place. *)
Fixpoint dumps (hook : pyval -> result string) (v : pyval) : result string :=
  match v with
  | PNone => Ok "null"
  | PBool true => Ok "true"
  | PBool false => Ok "false"
  | PInt n => Ok (dec n)
  | PFloat r => Ok r
  | PStr s => Ok (encode_str s)
  | PList items =>
      body ← mapM (dumps hook) items;
      Ok ("[" +:+ join ", " body +:+ "]")
  | PDict items =>
      body ← mapM (fun kv => t ← dumps hook (snd kv);
                             Ok (encode_str (fst kv) +:+ ": " +:+ t)) items;
      Ok ("{" +:+ join ", " body +:+ "}")
  | PDatetime _ | PDate _ | PObject _ =>
      s ← hook v; Ok (encode_str s)
  end.

(** The module's hook. *)
Definition json_serial (obj : pyval) : result string :=
  match obj with
  | PDatetime t => Ok (datetime_isoformat t)
  | PDate d => Ok (date_isoformat d)
  | _ => Raise (TypeError ("Type " +:+ type_str obj +:+ " not serializable"))
  end.

(** What the encoder does when no hook is given. *)
Definition no_hook (obj : pyval) : result string :=
  Raise (TypeError ("Object of type " +:+ class_name obj +:+
                    " is not JSON serializable")).

End Json.
Import Json.

(** ** The collaborators of the engine

    [Event], [UserPool] and [load_config] live in other modules of the
    package.  The engine reads six attributes of a session and calls the
    methods below; everything else a session holds is [internal]. *)

Record Config : Type := { visits_per_hour : gmap Z Q }.

Class Domain : Type :=
  { User : Type; UserPool : Type; Internal : Type }.

Record Session `{Domain} : Type :=
  { current_timestamp : Z;
    is_new_page : bool;
    custom_event : option string;
    modal_event : string;
    modal : bool;
    yield_modal : bool;
    internal : Internal }.

Class EventModel `{Domain} : Type :=
  { load_config : option string -> Config;
    UserPool_init : Z -> Config -> UserPool;
    get_user : UserPool -> User * UserPool;
    Event_init : Z -> User -> Z -> bool -> Config -> Session;
    Event_update : Session -> Z -> bool -> Session;
    is_active : Session -> bool;
    asdict : Session -> list (string * pyval) }.

(** ** The random module

    [randrange(start, stop)] picks an integer of [start, stop) and raises on
    an empty range (the message of the library goes on with the bounds);
    [raw] is the entropy it consumes. *)
Definition randrange (start stop : Z) (raw : Z) : result Z :=
  if start <? stop then Ok (start + raw mod (stop - start))
  else Raise (ValueError "empty range for randrange()").

(** bisect.bisect_right(a, x, 0, hi) on a non-decreasing list. *)
Fixpoint bisect (a : list Q) (x : Q) (hi : nat) : nat :=
  match hi, a with
  | S hi', w :: a' => if Qle_bool w x then S (bisect a' x hi') else O
  | _, _ => O
  end.

(** [choices(population, cum_weights=cw)[0]]; [u] is the value of the
    [random()] call it makes. *)
Definition choices (population : list Z) (cw : list Q) (u : Q) : result Z :=
  if negb (length cw =? length population)%nat then
    Raise (ValueError "The number of weights does not match the population")
  else
    let total := List.last cw 0%Q in
    if Qle_bool total 0 then
      Raise (ValueError "Total of weights must be greater than zero")
    else
      Ok (nth (bisect cw (u * total)%Q (length population - 1)) population 0).

(** The growth shapes of [randomize_sess_ts]. *)
Inductive shape : Type := Linear | Exponential | Uniform.

(** [x in names] for an attribute that is a string or [None]. *)
Definition py_in (x : option string) (names : list string) : bool :=
  match x with
  | Some name => bool_decide (name ∈ names)
  | None => false
  end.

Definition growth_shape (growth : option string) : shape :=
  if py_in growth ["lineal"; "lin"; "linear"] then Linear
  else if py_in growth ["exp"; "exponential"] then Exponential
  else Uniform.

(** The ratio of [randomize_sess_ts].  [sample] is what the library call of
    the branch taken returns: [triangular(0, 1, 0)], [expovariate(1 / 1.5)]
    or [random()]. *)
Definition growth_ratio (growth : option string) (sample : Q) : Q :=
  match growth_shape growth with
  | Linear => 1 - sample
  | Exponential =>
      let ratio := sample in
      if Qlt_bool ratio 8 then (8 - ratio) / 8 else 1
  | Uniform => sample
  end.

(** The range the library promises for each call. *)
Definition sample_ok (growth : option string) (sample : Q) : Prop :=
  match growth_shape growth with
  | Linear => (0 <= sample /\ sample <= 1)%Q
  | Exponential => (0 <= sample)%Q
  | Uniform => (0 <= sample /\ sample < 1)%Q
  end.

(** ** The simulation state *)

Record Simulation `{Domain} : Type :=
  { config : Config;
    user_pool : UserPool;
    heap : gmap nat Session;      (* the Event objects, by identity *)
    next_id : nat;                (* the identity of the next object *)
    cur_sessions : list nat;      (* references into [heap] *)
    init_time : Z;
    cur_time : Z;
    stop_time : Z;
    batch_size : Z;
    sessions_per_day : Z;
    qty_events : Z;
    rate : Q;
    growth : option string;
    always_forward : bool;
    yield_as_json : bool }.

Section Engine.
Context `{EventModel}.

Definition set_clock (t : Z) (s : Simulation) : Simulation :=
  {| config := config s; user_pool := user_pool s; heap := heap s;
     next_id := next_id s; cur_sessions := cur_sessions s;
     init_time := init_time s; cur_time := t; stop_time := stop_time s;
     batch_size := batch_size s; sessions_per_day := sessions_per_day s;
     qty_events := qty_events s; rate := rate s; growth := growth s;
     always_forward := always_forward s; yield_as_json := yield_as_json s |}.

Definition set_rate (r : Q) (s : Simulation) : Simulation :=
  {| config := config s; user_pool := user_pool s; heap := heap s;
     next_id := next_id s; cur_sessions := cur_sessions s;
     init_time := init_time s; cur_time := cur_time s; stop_time := stop_time s;
     batch_size := batch_size s; sessions_per_day := sessions_per_day s;
     qty_events := qty_events s; rate := r; growth := growth s;
     always_forward := always_forward s; yield_as_json := yield_as_json s |}.

Definition set_registry (pool : UserPool) (h : gmap nat Session) (n : nat)
    (l : list nat) (s : Simulation) : Simulation :=
  {| config := config s; user_pool := pool; heap := h;
     next_id := n; cur_sessions := l;
     init_time := init_time s; cur_time := cur_time s; stop_time := stop_time s;
     batch_size := batch_size s; sessions_per_day := sessions_per_day s;
     qty_events := qty_events s; rate := rate s; growth := growth s;
     always_forward := always_forward s; yield_as_json := yield_as_json s |}.

(** *** Rate derivation *)

Definition get_curr_duration (s : Simulation) : Z := cur_time s - init_time s.

Definition get_steps_per_hour (s : Simulation) : result Q :=
  py_div 3600 (inject_Z (batch_size s)).

Definition get_rate_per_step (s : Simulation) : result Q :=
  hourly_rate ← match visits_per_hour (config s) !! hour_of (cur_time s) with
                | Some v => Ok v
                | None => Raise (KeyError (hour_of (cur_time s)))
                end;
  steps ← get_steps_per_hour s;
  py_div (hourly_rate * inject_Z (sessions_per_day s)) steps.

(** *** Construction

    The default of [init_time] is the value [datetime.now()] had when the
    [def] statement ran, that is when the module was loaded: [loaded_at].
    [now] is the instant of the call. *)

Record Args : Type :=
  { user_pool_size : Z;
    arg_sessions_per_day : Z;
    arg_batch_size : Z;
    arg_init_time : option Z;
    arg_sim_days : Q;
    arg_growth : option string;
    arg_config_path : option string;
    arg_always_forward : bool;
    arg_yield_as_json : bool }.

Definition default_args (size : Z) : Args :=
  {| user_pool_size := size; arg_sessions_per_day := 10000;
     arg_batch_size := 10; arg_init_time := None; arg_sim_days := 1;
     arg_growth := None; arg_config_path := None;
     arg_always_forward := true; arg_yield_as_json := false |}.

Definition Simulation_init (loaded_at now : Z) (a : Args) : result Simulation :=
  let cfg := load_config (arg_config_path a) in
  let pool := UserPool_init (user_pool_size a) cfg in
  let init := default loaded_at (arg_init_time a) in
  if Qle_bool (arg_sim_days a) 0 then
    Raise (AssertionError "Simulation lenght cannot be negative")
  else
    let s := {| config := cfg; user_pool := pool; heap := ∅; next_id := O;
                cur_sessions := []; init_time := init; cur_time := init;
                stop_time := init + timedelta_days (arg_sim_days a);
                batch_size := arg_batch_size a;
                sessions_per_day := arg_sessions_per_day a;
                qty_events := 0; rate := 0;
                growth := arg_growth a;
                always_forward := arg_always_forward a;
                yield_as_json := arg_yield_as_json a |} in
    r ← get_rate_per_step s;
    Ok (set_rate r s).

(** *** wait

    [0.3] is read as three tenths: in binary64 the product with an integer
    step has the same integer part. *)

Definition wait (always_fwd : bool) (raw : Z) (s : Simulation) : result Simulation :=
  let min_range :=
    if always_fwd then 0 else - py_int (inject_Z (batch_size s) * (3 # 10)) in
  let max_range := py_int (inject_Z (batch_size s) * (3 # 10)) in
  j ← randrange min_range max_range raw;
  let s1 := set_clock (cur_time s + timedelta_seconds (batch_size s + j)) s in
  r ← get_rate_per_step s1;
  Ok (set_rate r s1).

(** *** randomize_sess_ts *)

Definition randomize_sess_ts (sample : Q) (s : Simulation) : Z :=
  let ratio := growth_ratio (growth s) sample in
  init_time s + timedelta_rmul ratio (stop_time s - init_time s).

(** *** create_sessions

    One pass of the body of the [for] loop: a timestamp, a user, a new
    [Event] object, appended to the registry. *)

Definition append_session (sample : Q) (s : Simulation) : Simulation :=
  let ts := randomize_sess_ts sample s in
  let '(user, pool) := get_user (user_pool s) in
  let session :=
    Event_init ts user (batch_size s) (always_forward s) (config s) in
  set_registry pool (<[next_id s := session]> (heap s)) (S (next_id s))
               (cur_sessions s ++ [next_id s]) s.

(** [u] is the [random()] of [choices], [samples n] the library draw of the
    [n]-th timestamp. *)
Definition n_users_of (r : Q) (u : Q) : result Z :=
  let n_users := py_int r in
  extra ← choices [1; 0] [py_mod1 r; 1%Q] u;
  Ok (n_users + extra).

Definition create_sessions (u : Q) (samples : nat -> Q) (s : Simulation)
    : result Simulation :=
  n_users ← n_users_of (rate s) u;
  Ok (fold_left (fun s n => append_session (samples n) s)
                (seq 0 (Z.to_nat n_users)) s).

(** *** update_all_sessions

    The loop runs over a copy of the registry.  [list.remove] deletes the
    first reference equal to its argument; an [Event] is equal to itself
    only.  Each call of [session.update] is recorded with its arguments. *)

Record UpdateCall : Type :=
  { on_session : nat; with_timestamp : Z; with_forward : bool }.

Fixpoint list_remove (x : nat) (l : list nat) : list nat :=
  match l with
  | [] => []
  | y :: l' => if bool_decide (y = x) then l' else y :: list_remove x l'
  end.

Definition update_session (s : Simulation) (ref : nat)
    : Simulation * list UpdateCall :=
  match heap s !! ref with
  | None => (s, [])
  | Some session =>
      let ts := current_timestamp session + get_curr_duration s in
      let session' := Event_update session ts (always_forward s) in
      let h := <[ref := session']> (heap s) in
      let l := if is_active session' then cur_sessions s
               else list_remove ref (cur_sessions s) in
      (set_registry (user_pool s) h (next_id s) l s,
       [{| on_session := ref; with_timestamp := ts;
           with_forward := always_forward s |}])
  end.

Fixpoint update_loop (snapshot : list nat) (s : Simulation)
    : Simulation * list UpdateCall :=
  match snapshot with
  | [] => (s, [])
  | ref :: rest =>
      let '(s1, c1) := update_session s ref in
      let '(s2, c2) := update_loop rest s1 in
      (s2, c1 ++ c2)
  end.

Definition update_all_sessions (s : Simulation) : Simulation :=
  fst (update_loop (cur_sessions s) s).

Definition update_calls (s : Simulation) : list UpdateCall :=
  snd (update_loop (cur_sessions s) s).

(** *** yield_event and the emission filter of run *)

Inductive Emitted : Type :=
| AsDict (record : list (string * pyval))
| AsJson (text : string).

Definition yield_event (s : Simulation) (session : Session) : result Emitted :=
  if yield_as_json s then
    text ← dumps json_serial (PDict (asdict session)); Ok (AsJson text)
  else Ok (AsDict (asdict session)).

(** The branches of the loop body of [run] that reach a [yield]. *)
Definition emits (session : Session) : bool :=
  if is_new_page session then true
  else if negb (is_new_page session)
          && negb (bool_decide (custom_event session = Some "pageview")) then
    if negb (bool_decide (Some (modal_event session) = custom_event session))
    then true
    else if negb (xorb (modal session) (yield_modal session)) then true
    else false
  else false.

(** The events the generator hands out while it walks the registry, and the
    exception that ends the walk, if any. *)
Fixpoint yield_loop (s : Simulation) (refs : list nat)
    : list Emitted * option exn :=
  match refs with
  | [] => ([], None)
  | ref :: rest =>
      match heap s !! ref with
      | None => yield_loop s rest
      | Some session =>
          if emits session then
            match yield_event s session with
            | Ok ev => let '(evs, e) := yield_loop s rest in (ev :: evs, e)
            | Raise e => ([], Some e)
            end
          else yield_loop s rest
      end
  end.

(** *** run

    One pass of the body of the [while] loop. *)
Record StepDraws : Type :=
  { choice_u : Q; growth_samples : nat -> Q; jitter_raw : Z }.

Definition run_step (d : StepDraws) (s : Simulation)
    : list Emitted * result Simulation :=
  let s1 := update_all_sessions s in
  match (s2 ← create_sessions (choice_u d) (growth_samples d) s1;
         wait (always_forward s2) (jitter_raw d) s2) with
  | Raise e => ([], Raise e)
  | Ok s3 =>
      let '(evs, e) := yield_loop s3 (cur_sessions s3) in
      (evs, match e with None => Ok s3 | Some e => Raise e end)
  end.

(** The generator, driven to its end.  [clock k] is what the [k]-th call of
    [time()] returns; [fuel] bounds the passes that are looked at. *)
Inductive Status : Type :=
| Finished (s : Simulation)
| Raised (e : exn)
| Running (s : Simulation).

Fixpoint run_from (fuel : nat) (clock : nat -> Q) (duration_seconds : Q)
    (draws : nat -> StepDraws) (k : nat) (s : Simulation)
    : list Emitted * Status :=
  match fuel with
  | O => ([], Running s)
  | S fuel' =>
      if Qle_bool duration_seconds (clock (S k) - clock O) then ([], Finished s)
      else
        match run_step (draws k) s with
        | (evs, Raise e) => (evs, Raised e)
        | (evs, Ok s') =>
            let '(evs', st) :=
              run_from fuel' clock duration_seconds draws (S k) s' in
            (evs ++ evs', st)
        end
  end.

Definition run (fuel : nat) (clock : nat -> Q) (duration_seconds : Q)
    (draws : nat -> StepDraws) (s : Simulation) : list Emitted * Status :=
  run_from fuel clock duration_seconds draws O s.

End Engine.

(** *** The reporting methods

    A [timedelta] is kept normalized: any number of days, seconds of
    [0, 86400) and microseconds of [0, 1000000). *)

Definition td_days (delta : Z) : Z := delta / us_per_day.
Definition td_seconds (delta : Z) : Z := (delta mod us_per_day) / us_per_second.
Definition td_microseconds (delta : Z) : Z := delta mod us_per_second.

Section Reports.
Context `{Domain}.

Definition get_len_sessions (s : Simulation) : nat := length (cur_sessions s).

(** The four numbers [get_duration_str] prints. *)
Definition duration_parts (s : Simulation) : Z * Z * Z * Z :=
  let duration_td := get_curr_duration s in
  let days := td_days duration_td in
  let hours := td_seconds duration_td / 3600 in
  let minutes := (td_seconds duration_td / 60) mod 60 in
  let seconds := td_seconds duration_td mod 60 in
  (days, hours, minutes, seconds).

Definition get_duration_str (s : Simulation) : string :=
  let '(days, hours, minutes, seconds) := duration_parts s in
  dec days +:+ " days, " +:+ dec hours +:+ " hours, " +:+
  dec minutes +:+ " minutes, " +:+ dec seconds +:+ " seconds".

(** [__str__]; [float_str] is [str] on a float. *)
Definition newline : string := String "010"%char EmptyString.

Definition Simulation_str (float_str : Q -> string) (s : Simulation) : string :=
  newline +:+ "SIMULATION STATE" +:+ newline +:+
  "Current Sessions: " +:+ dec (Z.of_nat (get_len_sessions s)) +:+ newline +:+
  "Current duration: " +:+ get_duration_str s +:+ newline +:+
  "Current user rate: " +:+ float_str (rate s) +:+ newline +:+
  "Quantity of events: " +:+ dec (qty_events s).

End Reports.

(** * The vocabulary of the properties *)

(** ** Growth modes *)

(** Lower-casing of a mode string, as a case-insensitive match would apply
    it before the comparison. *)
Definition lower_char (c : ascii) : ascii :=
  let n := N_of_ascii c in
  if ((65 <=? n) && (n <=? 90))%N then ascii_of_N (n + 32) else c.

Fixpoint lower (s : string) : string :=
  match s with
  | EmptyString => EmptyString
  | String c s' => String (lower_char c) (lower s')
  end.

(** Selection as a case-insensitive reading of the synonym groups has it. *)
Definition growth_shape_nocase (growth : option string) : shape :=
  growth_shape (lower <$> growth).

(** ** Configurations and states *)

(** The curve has an entry for each hour of the day. *)
Definition curve_complete (cfg : Config) : Prop :=
  forall h, 0 <= h < 24 -> is_Some (visits_per_hour cfg !! h).

(** [s'] is [s] with another registry: pool, objects and references. *)
Definition registry_only `{Domain} (s s' : Simulation) : Prop :=
  exists pool h n l, s' = set_registry pool h n l s.

(** ** The ranges of the library types

    The integers and rationals of the embedding have no largest value; a
    [datetime] ends with the year 9999, and an integer converts to a float
    only below 2 ^ 1024. *)

Definition datetime_max : Z := 315537897599999999.

Definition fits_datetime (t : Z) : Prop := 0 <= t <= datetime_max.

Definition fits_float (n : Z) : Prop := Z.abs n < 2 ^ 1023.

(** No entry of the curve is negative. *)
Definition curve_nonneg (cfg : Config) : Prop :=
  forall h v, visits_per_hour cfg !! h = Some v -> (0 <= v)%Q.

Section Vocabulary.
Context `{EventModel}.

(** The state a run has reached when it stops or is looked at, if it has
    not raised. *)
Definition final_state (st : Status) : option Simulation :=
  match st with
  | Finished s | Running s => Some s
  | Raised _ => None
  end.

(** The stored rate is the rate of the hour the clock shows. *)
Definition rate_synced (s : Simulation) : Prop :=
  get_rate_per_step s = Ok (rate s).

(** [s'] is [s] with another registry, clock and rate: what the methods
    of the class write after construction. *)
Definition evolves (s s' : Simulation) : Prop :=
  exists pool h n l t r,
    s' = set_rate r (set_clock t (set_registry pool h n l s)).

(** An event is in the format the flag selects. *)
Definition in_format (as_json : bool) (ev : Emitted) : Prop :=
  match ev with
  | AsDict _ => as_json = false
  | AsJson _ => as_json = true
  end.

(** The pool after [n] users have been taken from it, and the user taken
    next. *)
Definition pool_after (pool : UserPool) (n : nat) : UserPool :=
  Nat.iter n (fun p => snd (get_user p)) pool.

Definition nth_user (pool : UserPool) (n : nat) : User :=
  fst (get_user (pool_after pool n)).

(** The timestamp each session of the registry is to be advanced with is in
    the range of [datetime]. *)
Definition sessions_fit (s : Simulation) : Prop :=
  Forall (fun ref =>
            match heap s !! ref with
            | Some x => fits_datetime (current_timestamp x + get_curr_duration s)
            | None => True
            end) (cur_sessions s).

(** The step of the clock is at least [low_step] and at most [high_step]
    seconds. *)
Definition low_step (s : Simulation) : Z :=
  batch_size s - Z.quot (3 * batch_size s) 10.

Definition high_step (s : Simulation) : Z :=
  batch_size s + Z.quot (3 * batch_size s) 10 - 1.

(** The sessions of the registry are distinct objects, all allocated. *)
Definition wf_registry (s : Simulation) : Prop :=
  NoDup (cur_sessions s) /\
  Forall (fun ref => is_Some (heap s !! ref)) (cur_sessions s).

(** The registry as the engine keeps it: well formed, and made of
    references handed out before. *)
Definition registry_inv (s : Simulation) : Prop :=
  wf_registry s /\
  Forall (fun ref => (ref < next_id s)%nat) (cur_sessions s).

(** One advance of a session, with the arguments of the loop body. *)
Definition advance (s : Simulation) (session : Session) : Session :=
  Event_update session (current_timestamp session + get_curr_duration s)
               (always_forward s).

Definition call_of (s : Simulation) (ref : nat) : list UpdateCall :=
  match heap s !! ref with
  | Some session =>
      [{| on_session := ref;
          with_timestamp := current_timestamp session + get_curr_duration s;
          with_forward := always_forward s |}]
  | None => []
  end.

(** The session reports active after its advance. *)
Definition survives (s : Simulation) (ref : nat) : bool :=
  match heap s !! ref with
  | Some session => is_active (advance s session)
  | None => false
  end.



End Vocabulary.

(** ** Arrivals under an equiprobable generator *)

(** The number of arrivals for a rate and a draw. *)
Definition arrivals (r u : Q) : Z :=
  match n_users_of r u with
  | Ok n => n
  | Raise _ => 0
  end.

(** Sums over the first [n] naturals. *)
Fixpoint sum_upto (f : nat -> Z) (n : nat) : Z :=
  match n with
  | O => 0
  | S n' => sum_upto f n' + f n'
  end.

(** A generator that returns each of the [N] values k / N, k < N, with the
    same probability: how many of them add the extra session, and the
    number of arrivals summed over all of them. *)
Definition draws_with_extra (r : Q) (N : positive) : Z :=
  sum_upto (fun k => arrivals r (Z.of_nat k # N) - py_int r) (Pos.to_nat N).

Definition total_arrivals (r : Q) (N : positive) : Z :=
  sum_upto (fun k => arrivals r (Z.of_nat k # N)) (Pos.to_nat N).

(** ** Serialized values *)

Definition find_first {A B} (f : A -> option B) : list A -> option B :=
  fix go l :=
    match l with
    | [] => None
    | x :: l' => match f x with Some y => Some y | None => go l' end
    end.

(** The first value, in the order the encoder walks a value, that is
    neither known to the encoder nor a timestamp. *)
Fixpoint first_unsupported (v : pyval) : option pyval :=
  match v with
  | PList items => find_first first_unsupported items
  | PDict items => find_first (fun kv => first_unsupported (snd kv)) items
  | PObject _ => Some v
  | _ => None
  end.

(** The value with each timestamp replaced by its ISO 8601 text. *)
Fixpoint render_timestamps (v : pyval) : pyval :=
  match v with
  | PList items => PList (map render_timestamps items)
  | PDict items =>
      PDict (map (fun kv => (fst kv, render_timestamps (snd kv))) items)
  | PDatetime t => PStr (datetime_isoformat t)
  | PDate d => PStr (date_isoformat d)
  | _ => v
  end.

Definition not_serializable (o : pyval) : exn :=
  TypeError ("Type " +:+ type_str o +:+ " not serializable").

(** What [dumps] with the hook of the module comes to. *)
Definition outcome (v : pyval) : result string :=
  match first_unsupported v with
  | Some o => Raise (not_serializable o)
  | None => dumps no_hook (render_timestamps v)
  end.

(** ** The layout of the texts, character by character

    The ISO 8601 layout written out with divisions, the strings the encoder
    copies unchanged, and texts with their double quotes written as
    apostrophes. *)

Definition digit (n : Z) : ascii := ascii_of_N (48 + Z.to_N n).

Definition digits2 (n : Z) : string :=
  String (digit (n / 10)) (String (digit (n mod 10)) EmptyString).

Definition digits4 (n : Z) : string :=
  String (digit (n / 1000))
    (String (digit (n / 100 mod 10)) (digits2 (n mod 100))).

Definition iso_date_layout (d : date) : string :=
  digits4 (year d) +:+ "-" +:+ digits2 (month d) +:+ "-" +:+ digits2 (day d).

Definition iso_seconds_layout (t : datetime) : string :=
  iso_date_layout (on t) +:+ "T" +:+ digits2 (hour t) +:+ ":" +:+
  digits2 (minute t) +:+ ":" +:+ digits2 (second t).

Definition valid_date (d : date) : Prop :=
  1 <= year d <= 9999 /\ 1 <= month d <= 12 /\ 1 <= day d <= 31.

Definition valid_time (t : datetime) : Prop :=
  valid_date (on t) /\ 0 <= hour t <= 23 /\ 0 <= minute t <= 59 /\
  0 <= second t <= 59.

(** A printable ASCII character other than the double quote and the
    backslash. *)
Definition plain_char (c : ascii) : bool :=
  let n := N_of_ascii c in
  ((32 <=? n) && (n <=? 126) && negb (n =? 34) && negb (n =? 92))%N.

Fixpoint plain (s : string) : bool :=
  match s with
  | EmptyString => true
  | String c s' => plain_char c && plain s'
  end.

Fixpoint quoted (s : string) : string :=
  match s with
  | EmptyString => EmptyString
  | String c s' =>
      String (if (N_of_ascii c =? 39)%N then quote else c) (quoted s')
  end.

Definition in_quotes (s : string) : string :=
  String quote (s +:+ String quote EmptyString).

(** A record with a timestamp, a date, a string and a list, and its JSON
    text. *)
Definition sample_record : list (string * pyval) :=
  [("event_timestamp",
    PDatetime {| on := {| year := 2020; month := 1; day := 2 |};
                 hour := 3; minute := 4; second := 5; microsecond := 120 |});
   ("day", PDate {| year := 2020; month := 1; day := 2 |});
   ("page_url_path", PStr "/home");
   ("counts", PList [PInt 1; PInt (-3); PNone; PBool true])].

Definition sample_text : string :=
  quoted ("{'event_timestamp': '2020-01-02T03:04:05.000120', " +:+
          "'day': '2020-01-02', 'page_url_path': '/home', " +:+
          "'counts': [1, -3, null, true]}").

(** [f] holds of the [n] integers from [z] on. *)
Fixpoint all_upto (f : Z -> bool) (n : nat) (z : Z) : bool :=
  match n with
  | O => true
  | S n' => if f z then all_upto f n' (z + 1) else false
  end.

(** ** A small concrete collaborator

    Sessions that count down: [internal] is the number of updates a session
    survives.  Used to run the engine on concrete inputs. *)

Module Toy.

Definition domain : Domain :=
  {| User := nat; UserPool := nat; Internal := nat |}.
#[local] Existing Instance domain.

Definition flat_curve (v : Q) : gmap Z Q :=
  list_to_map (map (fun h => (Z.of_nat h, v)) (seq 0 24)).

Definition session (ts : Z) (new_page : bool) (custom : option string)
    (is_modal wants_modal : bool) (left : nat) : @Session domain :=
  @Build_Session domain ts new_page custom "signup" is_modal wants_modal left.

Definition model : @EventModel domain :=
  {| load_config := fun _ => {| visits_per_hour := flat_curve (1 # 24) |};
     UserPool_init := fun size _ => O;
     get_user := fun pool => (pool, S pool);
     Event_init := fun ts user _ _ _ =>
       session ts true None false false (user mod 3)%nat;
     Event_update := fun (x : @Session domain) ts _ =>
       session ts false (custom_event x) (modal x) (yield_modal x)
               (pred (internal x));
     is_active := fun x => negb (internal x =? 0)%nat;
     asdict := fun x => [("event_timestamp", PInt (current_timestamp x))] |}.

(** A simulation holding the given sessions, at its start time. *)
Definition holding (sessions : list (@Session domain)) (step : Z)
    (forward as_json : bool) : @Simulation domain :=
  {| config := {| visits_per_hour := flat_curve (1 # 24) |};
     user_pool := O;
     heap := list_to_map (zip (seq 0 (length sessions)) sessions);
     next_id := length sessions;
     cur_sessions := seq 0 (length sessions);
     init_time := 0; cur_time := 0; stop_time := us_per_day;
     batch_size := step; sessions_per_day := 10000; qty_events := 0;
     rate := 0; growth := None;
     always_forward := forward; yield_as_json := as_json |}.

Definition draws (u : Q) (sample : Q) (raw : Z) : StepDraws :=
  {| choice_u := u; growth_samples := fun _ => sample; jitter_raw := raw |}.

#[local] Existing Instance model.

Definition valueerror : exn := ValueError "empty range for randrange()".

(** Constructor arguments with a given step size and the defaults
    otherwise. *)
Definition args_with_step (step : Z) : Args :=
  {| user_pool_size := 5; arg_sessions_per_day := 10000;
     arg_batch_size := step; arg_init_time := None; arg_sim_days := 1;
     arg_growth := None; arg_config_path := None;
     arg_always_forward := true; arg_yield_as_json := false |}.


(** A wall clock that gains a second at each reading, and the same draws
    at each pass. *)
Definition ticking (k : nat) : Q := inject_Z (Z.of_nat k).

Definition steady_draws (k : nat) : StepDraws := draws (1 # 2) (1 # 3) 7.

Definition three_sessions : Simulation :=
  holding [session 5 true None false false 2;
               session 7 false (Some "click") false false 1;
               session 9 false (Some "signup") true true 0]
              10 true false.

(** The simulation the constructor builds from the default arguments, the
    outcome of one pass over [three_sessions] and of two passes of [run]. *)
Definition built : Simulation :=
  match Simulation_init 0 100 (default_args 5) with
  | Ok s => s
  | Raise _ => holding [] 10 true false
  end.

Definition state_of (st : Status) : Simulation :=
  match st with
  | Finished s | Running s => s
  | Raised _ => holding [] 10 true false
  end.

Definition one_pass : list Emitted * result Simulation :=
  run_step (steady_draws O) three_sessions.

Definition after_one_pass : Simulation :=
  match snd one_pass with
  | Ok s => s
  | Raise _ => three_sessions
  end.

Definition two_passes : list Emitted * Status :=
  run 2 ticking 10 steady_draws three_sessions.

Definition built_two_passes : list Emitted * Status :=
  run 2 ticking 10 steady_draws built.

End Toy.

(** * Properties *)

(** ** Growth mode selection *)

Lemma py_in_spec (x : option string) (names : list string) :
  py_in x names = true <-> exists name, x = Some name /\ name ∈ names.
Proof.
  destruct x as [name|]; simpl.
  - rewrite bool_decide_eq_true. split; [eauto|].
    intros (n & Hn & Hin). by inversion Hn.
  - split; [done|]. by intros (n & Hn & _).
Qed.

(** C5, as the code has it: the comparison is exact.  The linear shape is
    selected by the strings lineal, lin and linear themselves, the
    exponential shape by exp and exponential themselves, and every other
    value, an absent mode and any other casing included, selects the
    uniform shape. *)
Theorem growth_shape_exact (growth : option string) :
  (growth_shape growth = Linear <->
     growth = Some "lineal" \/ growth = Some "lin" \/ growth = Some "linear") /\
  (growth_shape growth = Exponential <->
     growth = Some "exp" \/ growth = Some "exponential") /\
  (growth_shape growth = Uniform <->
     growth <> Some "lineal" /\ growth <> Some "lin" /\
     growth <> Some "linear" /\ growth <> Some "exp" /\
     growth <> Some "exponential").
Proof.
  unfold growth_shape, py_in. destruct growth as [g|]; [|naive_solver].
  repeat case_bool_decide; set_unfold; naive_solver.
Qed.

(** C5 as claimed fails: Linear is a casing of linear, and selects the
    uniform shape. *)
Lemma growth_shape_casing_counterexample :
  lower "Linear" = "linear" /\
  growth_shape_nocase (Some "Linear") = Linear /\
  growth_shape (Some "Linear") = Uniform /\
  growth_shape (Some "EXP") = Uniform.
Proof. repeat split; vm_compute; reflexivity. Qed.

(** ** Construction *)

Ltac unfold_bind := unfold mbind, result_bind, Py.bind in *.

Section Construction.
Context `{EventModel}.

Lemma Simulation_init_inv loaded_at now a s :
  Simulation_init loaded_at now a = Ok s ->
  (0 < arg_sim_days a)%Q /\
  init_time s = default loaded_at (arg_init_time a) /\
  cur_time s = init_time s /\
  stop_time s = init_time s + timedelta_days (arg_sim_days a) /\
  batch_size s = arg_batch_size a /\
  cur_sessions s = [].
Proof.
  unfold Simulation_init.
  destruct (Qle_bool (arg_sim_days a) 0) eqn:Hd; [discriminate|].
  unfold_bind.
  match goal with |- context [get_rate_per_step ?x] =>
    destruct (get_rate_per_step x) as [r|e]; [|discriminate] end.
  intros [= <-]. simpl. repeat split; try reflexivity.
  apply Qnot_le_lt. intros Hle. apply Qle_bool_iff in Hle. congruence.
Qed.

(** C8, on the code: with no start time given, [init_time] is the instant
    the module was loaded, whatever the instant [now] of the call. *)
Theorem default_init_time_is_load_time loaded_at now a s :
  arg_init_time a = None ->
  Simulation_init loaded_at now a = Ok s ->
  init_time s = loaded_at.
Proof.
  intros Hnone Hs. apply Simulation_init_inv in Hs as (_ & Hi & _).
  by rewrite Hi, Hnone.
Qed.

(** A start time that is given is the start time. *)
Lemma explicit_init_time loaded_at now a t (s : Simulation) :
  arg_init_time a = Some t ->
  Simulation_init loaded_at now a = Ok s ->
  init_time s = t.
Proof.
  intros Ht Hs. apply Simulation_init_inv in Hs as (_ & Hi & _).
  by rewrite Hi, Ht.
Qed.

Lemma get_rate_per_step_zero_batch (s : Simulation) :
  batch_size s = 0 -> Py.raises (get_rate_per_step s).
Proof.
  intros Hb. unfold get_rate_per_step, get_steps_per_hour. unfold_bind.
  destruct (visits_per_hour (config s) !! hour_of (cur_time s)); [|exact I].
  rewrite Hb. exact I.
Qed.

(** The assertion is the error of a duration that is not positive. *)
Lemma Simulation_init_asserts loaded_at now a :
  (arg_sim_days a <= 0)%Q ->
  Simulation_init loaded_at now a =
    Raise (AssertionError "Simulation lenght cannot be negative").
Proof.
  intros Hle. unfold Simulation_init.
  apply Qle_bool_iff in Hle. by rewrite Hle.
Qed.


(** Construction raises when the simulated duration is not positive (the
    assertion) and when the step size is zero (the division of
    [get_steps_per_hour]). *)
Theorem Simulation_init_raises loaded_at now a :
  (arg_sim_days a <= 0)%Q \/ arg_batch_size a = 0 ->
  Py.raises (Simulation_init loaded_at now a).
Proof.
  intros Hbad. unfold Simulation_init.
  destruct (Qle_bool (arg_sim_days a) 0) eqn:Hd; [exact I|].
  destruct Hbad as [Hle|Hb].
  { apply Qle_bool_iff in Hle. congruence. }
  unfold_bind.
  match goal with |- context [get_rate_per_step ?x] =>
    pose proof (get_rate_per_step_zero_batch x Hb) as Hr;
    destruct (get_rate_per_step x) end; [destruct Hr|exact I].
Qed.

End Construction.

(** ** The clock *)

(** [int(batch_size * 0.3)]: three tenths of the step, truncated. *)
Lemma jitter_bound_quot (b : Z) :
  py_int (inject_Z b * (3 # 10)) = Z.quot (3 * b) 10.
Proof.
  replace (3 * b) with (b * 3) by lia. remember (b * 3) as n eqn:Hn.
  unfold py_int, Qle_bool, Qceiling, Qfloor, Qopp, Qmult, inject_Z. simpl.
  rewrite <- Hn. clear Hn. change (Z.pos (1 * 10)) with 10.
  match goal with |- context [?x <=? ?y] =>
    destruct (Z.leb_spec x y) as [Hb|Hb] end.
  - rewrite Z.quot_div_nonneg by lia. reflexivity.
  - replace n with (- (- n)) at 2 by lia.
    rewrite Z.quot_opp_l by lia. rewrite Z.quot_div_nonneg by lia. reflexivity.
Qed.

Lemma jitter_bound_small (b : Z) : b <= 3 -> Z.quot (3 * b) 10 <= 0.
Proof.
  intros Hb. destruct (Z.le_gt_cases 0 b).
  - assert (Hc : b = 0 \/ b = 1 \/ b = 2 \/ b = 3) by lia.
    destruct Hc as [-> | [-> | [-> | ->]]]; vm_compute; discriminate.
  - apply Z.quot_le_upper_bound; lia.
Qed.

Lemma jitter_bound_large (b : Z) :
  4 <= b -> 1 <= Z.quot (3 * b) 10 /\ Z.quot (3 * b) 10 < b.
Proof.
  intros Hb. rewrite Z.quot_div_nonneg by lia. split.
  - apply Z.div_le_lower_bound; lia.
  - apply Z.div_lt_upper_bound; lia.
Qed.

Lemma hour_of_range (t : Z) : 0 <= hour_of t < 24.
Proof. unfold hour_of. apply Z.mod_pos_bound. lia. Qed.

Section Clock.
Context `{EventModel}.

Lemma registry_only_refl (s : Simulation) : registry_only s s.
Proof. exists (user_pool s), (heap s), (next_id s), (cur_sessions s). by destruct s. Qed.

Lemma registry_only_trans (s1 s2 s3 : Simulation) :
  registry_only s1 s2 -> registry_only s2 s3 -> registry_only s1 s3.
Proof.
  intros (p & h & n & l & ->) (p' & h' & n' & l' & ->).
  by exists p', h', n', l'.
Qed.

Lemma registry_only_settings (s s' : Simulation) :
  registry_only s s' ->
  batch_size s' = batch_size s /\ always_forward s' = always_forward s /\
  init_time s' = init_time s /\ cur_time s' = cur_time s /\
  stop_time s' = stop_time s /\ config s' = config s /\
  rate s' = rate s /\ growth s' = growth s /\
  yield_as_json s' = yield_as_json s.
Proof. intros (p & h & n & l & ->). by repeat split. Qed.

Lemma get_rate_per_step_total (s : Simulation) :
  curve_complete (config s) -> batch_size s <> 0 ->
  exists r, get_rate_per_step s = Ok r.
Proof.
  intros Hc Hb. unfold get_rate_per_step, get_steps_per_hour, py_div.
  destruct (Hc (hour_of (cur_time s)) (hour_of_range _)) as [v Hv].
  rewrite Hv. unfold_bind.
  assert (Hnz : ~ (inject_Z (batch_size s) == 0)%Q).
  { intros Hz. unfold Qeq in Hz. simpl in Hz. lia. }
  destruct (Qeq_bool (inject_Z (batch_size s)) 0) eqn:Hq.
  { by apply Qeq_bool_iff in Hq. }
  destruct (Qeq_bool (3600 / inject_Z (batch_size s)) 0) eqn:Hq'; [|eauto].
  apply Qeq_bool_iff in Hq'.
  pose proof (Qmult_div_r 3600 _ Hnz) as Hm.
  rewrite Hq', Qmult_0_r in Hm. discriminate Hm.
Qed.

(** What a call of [wait] that returns has done. *)
Lemma wait_inv always_fwd raw (s s' : Simulation) :
  wait always_fwd raw s = Ok s' ->
  exists j,
    (if always_fwd then 0 else - Z.quot (3 * batch_size s) 10) <= j
      < Z.quot (3 * batch_size s) 10 /\
    cur_time s' = cur_time s + (batch_size s + j) * us_per_second /\
    init_time s' = init_time s /\ batch_size s' = batch_size s /\
    cur_sessions s' = cur_sessions s /\ heap s' = heap s /\
    next_id s' = next_id s /\ stop_time s' = stop_time s /\
    yield_as_json s' = yield_as_json s.
Proof.
  unfold wait, randrange. rewrite jitter_bound_quot. unfold_bind.
  set (m := Z.quot (3 * batch_size s) 10).
  set (lo := if always_fwd then 0 else - m).
  destruct (Z.ltb_spec lo m) as [Hlt|Hge]; [|discriminate].
  match goal with |- context [get_rate_per_step ?x] =>
    destruct (get_rate_per_step x) as [r|e]; [|discriminate] end.
  intros [= <-]. exists (lo + raw mod (m - lo)). simpl.
  pose proof (Z.mod_pos_bound raw (m - lo) ltac:(lia)).
  repeat split; try reflexivity; lia.
Qed.

(** With a step of three seconds or less the range of the jitter is empty
    and [randrange] raises. *)
Lemma wait_raises_small always_fwd raw (s : Simulation) :
  batch_size s <= 3 ->
  wait always_fwd raw s = Raise (ValueError "empty range for randrange()").
Proof.
  intros Hb. unfold wait, randrange. rewrite jitter_bound_quot.
  pose proof (jitter_bound_small _ Hb) as Hm.
  set (m := Z.quot (3 * batch_size s) 10) in *.
  destruct always_fwd.
  - destruct (Z.ltb_spec 0 m); [lia|reflexivity].
  - destruct (Z.ltb_spec (- m) m); [lia|reflexivity].
Qed.

(** With a step of four seconds or more and a complete curve, [wait]
    returns, the clock has moved by the step plus a jitter of the stated
    range, and it has moved forward. *)
Lemma wait_advances always_fwd raw (s : Simulation) :
  4 <= batch_size s -> curve_complete (config s) ->
  exists s' j,
    wait always_fwd raw s = Ok s' /\
    (if always_fwd then 0 else - Z.quot (3 * batch_size s) 10) <= j
      < Z.quot (3 * batch_size s) 10 /\
    cur_time s' = cur_time s + (batch_size s + j) * us_per_second /\
    cur_time s < cur_time s'.
Proof.
  intros Hb Hc.
  assert (Hok : exists s', wait always_fwd raw s = Ok s').
  { unfold wait, randrange. rewrite jitter_bound_quot.
    pose proof (jitter_bound_large _ Hb) as [Hm _].
    set (m := Z.quot (3 * batch_size s) 10) in *.
    set (lo := if always_fwd then 0 else - m).
    assert (Hlo : lo < m) by (subst lo; destruct always_fwd; lia).
    destruct (Z.ltb_spec lo m); [|lia]. unfold_bind.
    match goal with |- context [get_rate_per_step ?x] =>
      destruct (get_rate_per_step_total x) as [r Hr]; [done|simpl; lia|] end.
    rewrite Hr. eauto. }
  destruct Hok as [s' Hs']. destruct (wait_inv _ _ _ _ Hs') as (j & Hj & Ht & _).
  exists s', j. repeat split; try done; try lia.
  pose proof (jitter_bound_large _ Hb) as [Hm Hm'].
  rewrite Ht. unfold us_per_second. destruct always_fwd; lia.
Qed.

End Clock.

(** ** The registry *)

Section Registry.
Context `{EventModel}.

Lemma list_remove_middle (x : nat) (kept rest : list nat) :
  x ∉ kept -> list_remove x (kept ++ x :: rest) = kept ++ rest.
Proof.
  induction kept as [|y kept IH]; intros Hx; simpl.
  - by rewrite bool_decide_eq_true_2.
  - rewrite bool_decide_eq_false_2 by set_solver.
    f_equal. apply IH. set_solver.
Qed.

Lemma update_session_registry_only (s : Simulation) ref :
  registry_only s (fst (update_session s ref)).
Proof.
  unfold update_session. destruct (heap s !! ref); simpl.
  - eexists _, _, _, _. reflexivity.
  - apply registry_only_refl.
Qed.

Lemma update_loop_registry_only snapshot (s : Simulation) :
  registry_only s (fst (update_loop snapshot s)).
Proof.
  revert s. induction snapshot as [|ref rest IH]; intros s; simpl.
  - apply registry_only_refl.
  - pose proof (update_session_registry_only s ref) as H1.
    destruct (update_session s ref) as [s1 c1]. simpl in H1.
    pose proof (IH s1) as H2.
    destruct (update_loop rest s1) as [s2 c2]. simpl in *.
    by eapply registry_only_trans.
Qed.

(** The loop, started on a registry that still holds the snapshot behind the
    references [kept] it has decided to keep. *)
Lemma update_loop_spec snapshot : forall kept (s : Simulation),
  NoDup snapshot ->
  (forall ref, ref ∈ snapshot -> ref ∉ kept) ->
  (forall ref, ref ∈ snapshot -> is_Some (heap s !! ref)) ->
  cur_sessions s = kept ++ snapshot ->
  cur_sessions (fst (update_loop snapshot s))
    = kept ++ List.filter (survives s) snapshot /\
  snd (update_loop snapshot s) = concat (map (call_of s) snapshot) /\
  (forall ref, heap (fst (update_loop snapshot s)) !! ref
     = if bool_decide (ref ∈ snapshot) then advance s <$> heap s !! ref
       else heap s !! ref).
Proof.
  induction snapshot as [|r rest IH]; intros kept s Hnd Hfresh Hall Hreg.
  - simpl. rewrite Hreg. repeat split; auto.
  - apply NoDup_cons in Hnd as [Hr Hnd].
    destruct (Hall r ltac:(set_solver)) as [o Ho].
    pose proof (update_session_registry_only s r) as Hro.
    simpl. unfold update_session in *. rewrite Ho in *. simpl in Hro.
    set (o' := Event_update o _ _) in *.
    set (s1 := set_registry _ _ _ _ s) in *.
    assert (Hheap1 : heap s1 = <[r := o']> (heap s)) by reflexivity.
    assert (Hsame : forall x, x ∈ rest -> heap s1 !! x = heap s !! x).
    { intros x Hx. rewrite Hheap1. apply lookup_insert_ne. set_solver. }
    assert (Hsurv : forall x, x ∈ rest -> survives s1 x = survives s x).
    { intros x Hx. unfold survives. by rewrite (Hsame x Hx). }
    assert (Hcall : forall x, x ∈ rest -> call_of s1 x = call_of s x).
    { intros x Hx. unfold call_of. by rewrite (Hsame x Hx). }
    assert (Hactive : survives s r = is_active o').
    { unfold survives. by rewrite Ho. }
    assert (Hfilter : List.filter (survives s1) rest
                      = List.filter (survives s) rest).
    { apply filter_ext_in. intros x Hx. apply Hsurv. by apply list_elem_of_In. }
    assert (Hcalls : concat (map (call_of s1) rest)
                     = concat (map (call_of s) rest)).
    { f_equal. apply map_ext_in. intros x Hx. apply Hcall.
      by apply list_elem_of_In. }
    assert (IHgen : forall kept',
      cur_sessions s1 = kept' ++ rest ->
      (forall ref, ref ∈ rest -> ref ∉ kept') ->
      cur_sessions (fst (update_loop rest s1))
        = kept' ++ List.filter (survives s) rest /\
      snd (update_loop rest s1) = concat (map (call_of s) rest) /\
      (forall ref, heap (fst (update_loop rest s1)) !! ref
         = if bool_decide (ref ∈ rest) then advance s <$> heap s !! ref
           else heap s1 !! ref)).
    { intros kept' Hreg' Hfresh'.
      destruct (IH kept' s1 Hnd Hfresh') as (Hl & Hc & Hh); [|done|].
      { intros x Hx. rewrite (Hsame x Hx). apply Hall. set_solver. }
      rewrite Hfilter in Hl. rewrite Hcalls in Hc.
      repeat split; try done.
      intros x. rewrite Hh. case_bool_decide as Hx; [|done].
      by rewrite (Hsame x Hx). }
    assert (Hfinal : forall kept',
      cur_sessions s1 = kept' ++ rest ->
      (forall ref, ref ∈ rest -> ref ∉ kept') ->
      kept' ++ List.filter (survives s) rest
        = kept ++ (if survives s r then r :: List.filter (survives s) rest
                   else List.filter (survives s) rest) ->
      let '(s2, c2) := update_loop rest s1 in
      cur_sessions s2 = kept ++ (if survives s r
                          then r :: List.filter (survives s) rest
                          else List.filter (survives s) rest) /\
      call_of s r ++ c2 = call_of s r ++ concat (map (call_of s) rest) /\
      (forall ref, heap s2 !! ref
         = if bool_decide (ref ∈ r :: rest) then advance s <$> heap s !! ref
           else heap s !! ref)).
    { intros kept' Hreg' Hfresh' Heq.
      destruct (IHgen kept' Hreg' Hfresh') as (Hl & Hc & Hh).
      destruct (update_loop rest s1) as [s2 c2]. cbn [fst snd] in *.
      split; [by rewrite Hl|]. split; [by rewrite Hc|].
      intros x. rewrite Hh.
      destruct (decide (x = r)) as [->|Hne].
      - rewrite (bool_decide_eq_false_2 (r ∈ rest)) by done.
        rewrite (bool_decide_eq_true_2 (r ∈ r :: rest)) by set_solver.
        rewrite Hheap1, lookup_insert_eq, Ho. reflexivity.
      - rewrite Hheap1, lookup_insert_ne by done.
        repeat case_bool_decide; set_solver. }
    assert (Hcall_r : call_of s r =
      [{| on_session := r;
          with_timestamp := current_timestamp o + get_curr_duration s;
          with_forward := always_forward s |}]).
    { unfold call_of. by rewrite Ho. }
    rewrite <- Hcall_r.
    destruct (is_active o') eqn:Hact.
    + specialize (Hfinal (kept ++ [r])).
      destruct (update_loop rest s1) as [s2 c2]. simpl.
      rewrite Hactive in *. apply Hfinal.
      * subst s1. simpl. rewrite ?Hact, Hreg. by rewrite <- app_assoc.
      * intros x Hx. set_solver.
      * by rewrite <- app_assoc.
    + specialize (Hfinal kept).
      destruct (update_loop rest s1) as [s2 c2]. simpl.
      rewrite Hactive in *. apply Hfinal.
      * subst s1. simpl. rewrite ?Hact, Hreg.
        apply list_remove_middle. apply Hfresh. set_solver.
      * intros x Hx. apply Hfresh. set_solver.
      * reflexivity.
Qed.



Lemma calls_arguments (s : Simulation) (l : list nat) c :
  c ∈ concat (map (call_of s) l) ->
  exists session,
    heap s !! on_session c = Some session /\
    with_timestamp c
      = current_timestamp session + (cur_time s - init_time s) /\
    with_forward c = always_forward s.
Proof.
  induction l as [|ref l IH]; simpl; [by intros ?%elem_of_nil|].
  intros [Hc|Hc]%elem_of_app; [|by apply IH].
  unfold call_of in Hc. destruct (heap s !! ref) as [o|] eqn:Ho.
  - apply list_elem_of_singleton in Hc as ->. simpl. eauto.
  - by apply elem_of_nil in Hc.
Qed.


End Registry.

(** ** Session timestamps *)

Lemma divide_and_round_cases (a b : Z) :
  0 < b ->
  (divide_and_round a b = a / b /\ 2 * (a mod b) <= b) \/
  (divide_and_round a b = a / b + 1 /\ b <= 2 * (a mod b)).
Proof.
  intros Hb. unfold divide_and_round.
  destruct (Z.ltb_spec 0 b) as [_|]; [|lia].
  destruct (Z.ltb_spec b (2 * (a mod b))) as [Hgt|Hle]; simpl.
  - right. split; [reflexivity|lia].
  - destruct (Z.eqb_spec (2 * (a mod b)) b) as [Heq|Hne]; simpl.
    + destruct (a / b mod 2 =? 1); [right|left]; split; (reflexivity || lia).
    + left. split; [reflexivity|lia].
Qed.

Lemma divide_and_round_near (a b : Z) :
  0 < b -> 2 * Z.abs (divide_and_round a b * b - a) <= b.
Proof.
  intros Hb. pose proof (Z.div_mod a b ltac:(lia)) as Hdm.
  pose proof (Z.mod_pos_bound a b Hb) as Hm.
  destruct (divide_and_round_cases a b Hb) as [[-> Hc]|[-> Hc]]; nia.
Qed.

Lemma divide_and_round_bounds (a b d : Z) :
  0 < b -> 0 <= a <= d * b -> 0 <= divide_and_round a b <= d.
Proof.
  intros Hb [Ha Hd]. pose proof (Z.div_mod a b ltac:(lia)) as Hdm.
  pose proof (Z.mod_pos_bound a b Hb) as Hm.
  assert (0 <= a / b) by (apply Z.div_pos; lia).
  assert (Hq : a / b <= d) by (apply Z.div_le_upper_bound; lia).
  destruct (divide_and_round_cases a b Hb) as [[-> Hc]|[-> Hc]]; [lia|].
  split; [lia|]. destruct (Z.eq_dec (a / b) d) as [Heq|Hne]; [|lia].
  rewrite Heq in Hdm. nia.
Qed.

Lemma growth_ratio_range (growth : option string) (sample : Q) :
  sample_ok growth sample ->
  (0 <= growth_ratio growth sample /\ growth_ratio growth sample <= 1)%Q.
Proof.
  unfold sample_ok, growth_ratio.
  destruct (growth_shape growth); simpl.
  - intros [H0 H1]. split; lra.
  - intros H0. unfold Qlt_bool.
    destruct (Qle_bool 8 sample) eqn:H8; simpl; [split; lra|].
    assert (sample < 8)%Q.
    { apply Qnot_le_lt. intros Hle. apply Qle_bool_iff in Hle. congruence. }
    unfold Qdiv. change (/ 8)%Q with (1 # 8)%Q. split; lra.
  - intros [H0 H1]. split; lra.
Qed.

(** The exponential shape: the clamp and the scale of the draw. *)
Lemma growth_ratio_exponential (growth : option string) (x : Q) :
  growth_shape growth = Exponential ->
  ((x < 8)%Q -> growth_ratio growth x = ((8 - x) / 8)%Q) /\
  ((8 <= x)%Q -> growth_ratio growth x = 1%Q).
Proof.
  intros Hs. unfold growth_ratio, Qlt_bool. rewrite Hs. split; intros Hx.
  - destruct (Qle_bool 8 x) eqn:H8; [|reflexivity].
    apply Qle_bool_iff in H8. exfalso. by apply (Qlt_not_le _ _ Hx).
  - apply Qle_bool_iff in Hx. by rewrite Hx.
Qed.

Lemma timedelta_rmul_range (ratio : Q) (delta : Z) :
  (0 <= ratio /\ ratio <= 1)%Q -> 0 <= delta ->
  0 <= timedelta_rmul ratio delta <= delta.
Proof.
  intros [H0 H1] Hd. unfold timedelta_rmul.
  apply divide_and_round_bounds; [lia|].
  unfold Qle in H0, H1. simpl in H0, H1. nia.
Qed.

Section Timestamps.
Context `{EventModel}.

(** C3: for each growth mode and each draw in the range the library
    promises, the ratio lies in [0, 1], the timestamp is [init_time] plus the
    ratio times the horizon, to the microsecond (so it is [init_time] plus
    some ratio of [0, 1] times the horizon, exactly), it lies in
    [init_time, stop_time], and in the exponential mode the ratio is
    (8 - x) / 8 for a draw x below 8 and 1 otherwise. *)
Theorem randomize_sess_ts_in_horizon (s : Simulation) (sample : Q) :
  init_time s <= stop_time s ->
  sample_ok (growth s) sample ->
  let r := growth_ratio (growth s) sample in
  let horizon := stop_time s - init_time s in
  let ts := randomize_sess_ts sample s in
  (0 <= r /\ r <= 1)%Q /\
  2 * Z.abs ((ts - init_time s) * Z.pos (Qden r) - horizon * Qnum r)
    <= Z.pos (Qden r) /\
  (exists r', (0 <= r' /\ r' <= 1)%Q /\
     (inject_Z ts == inject_Z (init_time s) + r' * inject_Z horizon)%Q) /\
  init_time s <= ts <= stop_time s /\
  (growth_shape (growth s) = Exponential ->
     ((sample < 8)%Q -> r = ((8 - sample) / 8)%Q) /\
     ((8 <= sample)%Q -> r = 1%Q)).
Proof.
  intros Hh Hs r horizon ts.
  pose proof (growth_ratio_range _ _ Hs) as Hr. fold r in Hr.
  assert (Hd : 0 <= horizon) by (subst horizon; lia).
  pose proof (timedelta_rmul_range r horizon Hr Hd) as Hq.
  assert (Hts : ts - init_time s = timedelta_rmul r horizon).
  { subst ts. unfold randomize_sess_ts. fold r horizon. lia. }
  split; [exact Hr|]. split.
  { rewrite Hts. unfold timedelta_rmul. apply divide_and_round_near. lia. }
  split.
  { destruct (Z.eq_dec horizon 0) as [Hz|Hne].
    - exists 0%Q. split; [split; lra|].
      assert (ts = init_time s) by lia.
      replace ts with (init_time s) by done. lra.
    - exists (timedelta_rmul r horizon # Z.to_pos horizon)%Q.
      split.
      + unfold Qle. simpl. rewrite Z2Pos.id by lia. split; lia.
      + replace ts with (init_time s + timedelta_rmul r horizon) by lia.
        rewrite inject_Z_plus. apply Qplus_comp; [reflexivity|].
        unfold Qeq, Qmult, inject_Z. simpl.
        rewrite Pos.mul_1_r, Z2Pos.id by lia. ring. }
  split; [lia|].
  intros He. subst r. by apply growth_ratio_exponential.
Qed.

(** The horizon of a simulation the constructor has built is not negative. *)
Lemma Simulation_init_horizon loaded_at now a (s : Simulation) :
  Simulation_init loaded_at now a = Ok s -> init_time s <= stop_time s.
Proof.
  intros Hs. apply Simulation_init_inv in Hs as (Hd & _ & _ & Hstop & _).
  rewrite Hstop. unfold timedelta_days.
  assert (0 <= divide_and_round (Qnum (arg_sim_days a) * us_per_day)
                                (Z.pos (Qden (arg_sim_days a)))); [|lia].
  unfold Qlt in Hd. simpl in Hd.
  pose proof (divide_and_round_bounds
    (Qnum (arg_sim_days a) * us_per_day) (Z.pos (Qden (arg_sim_days a)))
    (Qnum (arg_sim_days a) * us_per_day) ltac:(lia)) as Hb.
  unfold us_per_day, us_per_hour, us_per_second in *.
  apply Hb. nia.
Qed.

End Timestamps.

(** ** Arrivals *)

(** The fractional part of a rate. *)
Lemma py_mod1_range (r : Q) : (0 <= py_mod1 r /\ py_mod1 r < 1)%Q.
Proof.
  unfold py_mod1. pose proof (Qfloor_le r). pose proof (Qlt_floor r) as Hlt.
  rewrite inject_Z_plus in Hlt. change (inject_Z 1) with 1%Q in Hlt.
  split; lra.
Qed.

Lemma py_int_nonneg (r : Q) : (0 <= r)%Q -> py_int r = Qfloor r.
Proof. intros Hr. unfold py_int. apply Qle_bool_iff in Hr. by rewrite Hr. Qed.

Lemma n_users_of_eq (r u : Q) :
  n_users_of r u
  = Ok (py_int r + (if Qle_bool (py_mod1 r) (u * 1) then 0 else 1)).
Proof.
  unfold n_users_of, choices. simpl.
  destruct (Qle_bool (py_mod1 r) (u * 1)); reflexivity.
Qed.

Lemma sum_upto_ext (f g : nat -> Z) (n : nat) :
  (forall k, (k < n)%nat -> f k = g k) -> sum_upto f n = sum_upto g n.
Proof.
  induction n as [|n IH]; intros Hfg; simpl; [done|].
  rewrite IH by (intros; apply Hfg; lia). rewrite Hfg by lia. reflexivity.
Qed.

Lemma sum_upto_threshold (c T : Z) (n : nat) :
  0 <= T ->
  sum_upto (fun k => c + (if Z.of_nat k <? T then 1 else 0)) n
  = Z.of_nat n * c + Z.min (Z.of_nat n) T.
Proof.
  intros HT. induction n as [|n IH]; [simpl; lia|].
  cbn [sum_upto]. rewrite IH.
  destruct (Z.ltb_spec (Z.of_nat n) T); lia.
Qed.

(** On the grid of resolution [m * d], where [d] is the denominator of the
    rate, the draw [k] adds the extra session exactly when [k] is below
    [m] times the numerator of the fractional part. *)
Lemma extra_on_grid (r : Q) (m : positive) (k : Z) :
  (if Qle_bool (py_mod1 r) ((k # (m * Qden r)) * 1) then 0 else 1)
  = (if k <? (Qnum r mod Z.pos (Qden r)) * Z.pos m then 1 else 0).
Proof.
  destruct r as [n d]. unfold py_mod1, Qle_bool, Qfloor.
  unfold Qminus, Qplus, Qopp, Qmult, inject_Z. cbn [Qnum Qden].
  pose proof (Z.div_mod n (Z.pos d) ltac:(lia)) as Hdm.
  pose proof (Z.mod_pos_bound n (Z.pos d) ltac:(lia)) as Hm.
  set (fl := n / Z.pos d) in *. set (a := n mod Z.pos d) in *.
  rewrite !Pos.mul_1_r, !Pos2Z.inj_mul.
  match goal with |- context [?x <=? ?y] => destruct (Z.leb_spec x y) as [Hle|Hgt] end;
    destruct (Z.ltb_spec k (a * Z.pos m)) as [Hlt|Hge]; try reflexivity; exfalso.
  - assert (a * Z.pos m * Z.pos d <= k * Z.pos d) by nia. nia.
  - assert (k * Z.pos d < a * Z.pos m * Z.pos d) by nia. nia.
Qed.

Lemma arrivals_on_grid (r : Q) (m : positive) (k : Z) :
  arrivals r (k # (m * Qden r))
  = py_int r + (if k <? (Qnum r mod Z.pos (Qden r)) * Z.pos m then 1 else 0).
Proof. unfold arrivals. rewrite n_users_of_eq. by rewrite extra_on_grid. Qed.

Lemma frac_numerator (r : Q) :
  (py_mod1 r == (Qnum r mod Z.pos (Qden r)) # Qden r)%Q.
Proof.
  destruct r as [n d]. unfold py_mod1, Qfloor, Qeq.
  unfold Qminus, Qplus, Qopp, inject_Z. cbn [Qnum Qden].
  pose proof (Z.div_mod n (Z.pos d) ltac:(lia)) as Hdm.
  rewrite Pos.mul_1_r. nia.
Qed.

Lemma draws_with_extra_eq (r : Q) (m : positive) :
  draws_with_extra r (m * Qden r) = (Qnum r mod Z.pos (Qden r)) * Z.pos m.
Proof.
  unfold draws_with_extra.
  pose proof (Z.mod_pos_bound (Qnum r) (Z.pos (Qden r)) ltac:(lia)) as Hm.
  rewrite (sum_upto_ext _
    (fun k => 0 + (if Z.of_nat k <? (Qnum r mod Z.pos (Qden r)) * Z.pos m
                   then 1 else 0))).
  - rewrite sum_upto_threshold by nia. rewrite positive_nat_Z, Pos2Z.inj_mul. nia.
  - intros k _. rewrite arrivals_on_grid. lia.
Qed.

Lemma total_arrivals_eq (r : Q) (m : positive) :
  total_arrivals r (m * Qden r)
  = Z.pos (m * Qden r) * py_int r + (Qnum r mod Z.pos (Qden r)) * Z.pos m.
Proof.
  unfold total_arrivals.
  pose proof (Z.mod_pos_bound (Qnum r) (Z.pos (Qden r)) ltac:(lia)) as Hm.
  rewrite (sum_upto_ext _
    (fun k => py_int r
              + (if Z.of_nat k <? (Qnum r mod Z.pos (Qden r)) * Z.pos m
                 then 1 else 0))).
  - rewrite sum_upto_threshold by nia. rewrite positive_nat_Z, Pos2Z.inj_mul. nia.
  - intros k _. by rewrite arrivals_on_grid.
Qed.

(** On a grid of any resolution [N] the draws that add the extra session
    are the first ceil(frac * N) ones: their share is the fractional part
    rounded up to a multiple of 1 / N. *)
Lemma extra_on_any_grid (r : Q) (N : positive) (k : Z) :
  let a := Qnum r mod Z.pos (Qden r) in
  let d := Z.pos (Qden r) in
  (if Qle_bool (py_mod1 r) ((k # N) * 1) then 0 else 1)
  = (if k <? (a * Z.pos N + d - 1) / d then 1 else 0).
Proof.
  intros a d. subst a d. destruct r as [n d].
  unfold py_mod1, Qle_bool, Qfloor.
  unfold Qminus, Qplus, Qopp, Qmult, inject_Z. cbn [Qnum Qden].
  pose proof (Z.div_mod n (Z.pos d) ltac:(lia)) as Hdm.
  pose proof (Z.mod_pos_bound n (Z.pos d) ltac:(lia)) as Hm.
  set (fl := n / Z.pos d) in *. set (a := n mod Z.pos d) in *.
  pose proof (Z.div_mod (a * Z.pos N + Z.pos d - 1) (Z.pos d) ltac:(lia)) as Hc.
  pose proof (Z.mod_pos_bound (a * Z.pos N + Z.pos d - 1) (Z.pos d)
                ltac:(lia)) as Hcm.
  set (c := (a * Z.pos N + Z.pos d - 1) / Z.pos d) in *.
  rewrite !Pos.mul_1_r.
  match goal with |- context [?x <=? ?y] =>
    destruct (Z.leb_spec x y) as [Hle|Hgt] end;
    destruct (Z.ltb_spec k c) as [Hlt|Hge]; try reflexivity; exfalso; nia.
Qed.

Lemma draws_with_extra_bound (r : Q) (N : positive) :
  let a := Qnum r mod Z.pos (Qden r) in
  let d := Z.pos (Qden r) in
  a * Z.pos N <= draws_with_extra r N * d < a * Z.pos N + d.
Proof.
  intros a d. unfold draws_with_extra.
  pose proof (Z.mod_pos_bound (Qnum r) d ltac:(subst d; lia)) as Hm.
  change (Qnum r mod d) with a in Hm.
  pose proof (Z.div_mod (a * Z.pos N + d - 1) d ltac:(subst d; lia)) as Hc.
  pose proof (Z.mod_pos_bound (a * Z.pos N + d - 1) d ltac:(subst d; lia))
    as Hcm.
  set (c := (a * Z.pos N + d - 1) / d) in *.
  assert (Hc0 : 0 <= c) by (apply Z.div_pos; subst d; nia).
  rewrite (sum_upto_ext _
    (fun k => 0 + (if Z.of_nat k <? c then 1 else 0))).
  - rewrite sum_upto_threshold by done. rewrite positive_nat_Z.
    assert (Hd : 0 < d) by (subst d; lia).
    assert (HaN : a * Z.pos N <= (d - 1) * Z.pos N) by nia.
    assert (Hlt : d * c < d * (Z.pos N + 1)) by nia.
    apply Z.mul_lt_mono_pos_l in Hlt; [|done].
    rewrite Z.min_r by lia. nia.
  - intros k _. unfold arrivals. rewrite n_users_of_eq.
    pose proof (extra_on_any_grid r N (Z.of_nat k)) as He.
    cbv zeta in He. fold a d c in He. rewrite He. lia.
Qed.

Section Arrivals.
Context `{EventModel}.

Lemma append_session_spec sample (s : Simulation) :
  cur_sessions (append_session sample s) = cur_sessions s ++ [next_id s] /\
  next_id (append_session sample s) = S (next_id s) /\
  registry_only s (append_session sample s).
Proof.
  unfold append_session. destruct (get_user (user_pool s)) as [user pool].
  simpl. repeat split. eexists _, _, _, _. reflexivity.
Qed.

Lemma append_sessions_spec (samples : nat -> Q) (l : list nat) :
  forall s : Simulation,
  let s' := fold_left (fun s n => append_session (samples n) s) l s in
  cur_sessions s' = cur_sessions s ++ seq (next_id s) (length l) /\
  next_id s' = (next_id s + length l)%nat /\
  registry_only s s'.
Proof.
  induction l as [|n l IH]; intros s; simpl.
  - rewrite app_nil_r, Nat.add_0_r. repeat split. apply registry_only_refl.
  - destruct (append_session_spec (samples n) s) as (Hl & Hn & Hr).
    destruct (IH (append_session (samples n) s)) as (Hl' & Hn' & Hr').
    rewrite Hl', Hn', Hl, Hn, <- app_assoc. repeat split; [lia|].
    by eapply registry_only_trans.
Qed.

Lemma create_sessions_spec (u : Q) (samples : nat -> Q) (s : Simulation) :
  exists s',
    create_sessions u samples s = Ok s' /\
    cur_sessions s'
      = cur_sessions s ++ seq (next_id s) (Z.to_nat (arrivals (rate s) u)) /\
    registry_only s s'.
Proof.
  unfold create_sessions, arrivals. rewrite n_users_of_eq. unfold_bind.
  eexists. split; [reflexivity|].
  match goal with |- context [fold_left ?f ?l s] =>
    destruct (append_sessions_spec samples l s) as (Hl & _ & Hr) end.
  rewrite Hl, length_seq. by split.
Qed.

(** C2: with a rate r >= 0, [create_sessions] appends floor(r) or
    floor(r) + 1 new sessions, the extra one exactly when the draw of
    [choices] falls below the fractional part of r.  Under a generator whose
    values k / N are equally likely, N any multiple of the denominator of
    r, the share of the draws that add the extra session is the fractional
    part of r, and the mean number of arrivals is r. *)
Theorem create_sessions_unbiased (s : Simulation) (u : Q) (samples : nat -> Q) :
  (0 <= rate s)%Q ->
  let r := rate s in
  let frac := (r - inject_Z (Qfloor r))%Q in
  exists n s',
    create_sessions u samples s = Ok s' /\
    cur_sessions s' = cur_sessions s ++ seq (next_id s) (Z.to_nat n) /\
    length (cur_sessions s') = (length (cur_sessions s) + Z.to_nat n)%nat /\
    (n = Qfloor r \/ n = Qfloor r + 1) /\
    (n = Qfloor r + 1 <-> (u < frac)%Q) /\
    (0 <= frac /\ frac < 1)%Q /\
    forall m : positive,
      let N := (m * Qden r)%positive in
      (inject_Z (draws_with_extra r N) == frac * inject_Z (Z.pos N))%Q /\
      (inject_Z (total_arrivals r N) == r * inject_Z (Z.pos N))%Q.
Proof.
  intros Hr r frac.
  destruct (create_sessions_spec u samples s) as (s' & Hs' & Hl & _).
  exists (arrivals r u), s'. fold r in Hl.
  split; [exact Hs'|]. split; [exact Hl|].
  split; [by rewrite Hl, length_app, length_seq|].
  assert (Ha : arrivals r u
               = Qfloor r + (if Qle_bool (py_mod1 r) (u * 1) then 0 else 1)).
  { unfold arrivals. rewrite n_users_of_eq. by rewrite py_int_nonneg. }
  assert (Hle : Qle_bool (py_mod1 r) (u * 1) = true <-> (frac <= u)%Q).
  { rewrite Qle_bool_iff, Qmult_1_r. reflexivity. }
  split; [|split; [|split]].
  - rewrite Ha. destruct (Qle_bool (py_mod1 r) (u * 1)); lia.
  - rewrite Ha. destruct (Qle_bool (py_mod1 r) (u * 1)) eqn:Hb.
    + split; [lia|]. intros Hlt. exfalso.
      apply (Qlt_not_le _ _ Hlt). by apply Hle.
    + split; [|lia]. intros _. apply Qnot_le_lt. intros Hc.
      apply Hle in Hc. discriminate Hc.
  - apply py_mod1_range.
  - intros m N. subst N. split.
    + rewrite draws_with_extra_eq.
      change frac with (py_mod1 r). rewrite (frac_numerator r).
      unfold Qeq, Qmult, inject_Z. cbn [Qnum Qden].
      rewrite Pos.mul_1_r, !Pos2Z.inj_mul. ring.
    + rewrite total_arrivals_eq, py_int_nonneg by done.
      destruct r as [n d]. unfold Qfloor, Qeq, Qmult, inject_Z. cbn [Qnum Qden].
      pose proof (Z.div_mod n (Z.pos d) ltac:(lia)) as Hdm.
      rewrite Pos.mul_1_r, !Pos2Z.inj_mul. nia.
Qed.

End Arrivals.

(** ** The registry stays well formed *)

Section Invariant.
Context `{EventModel}.

Lemma registry_inv_init loaded_at now a (s : Simulation) :
  Simulation_init loaded_at now a = Ok s -> registry_inv s.
Proof.
  intros Hs. apply Simulation_init_inv in Hs as (_ & _ & _ & _ & _ & Hl).
  unfold registry_inv, wf_registry. rewrite Hl.
  repeat split; constructor.
Qed.

Lemma update_loop_next_id snapshot (s : Simulation) :
  next_id (fst (update_loop snapshot s)) = next_id s.
Proof.
  revert s. induction snapshot as [|ref rest IH]; intros s; simpl; [done|].
  assert (H1 : next_id (fst (update_session s ref)) = next_id s).
  { unfold update_session. by destruct (heap s !! ref). }
  destruct (update_session s ref) as [s1 c1]. simpl in H1.
  specialize (IH s1). destruct (update_loop rest s1) as [s2 c2].
  simpl in *. congruence.
Qed.

Lemma registry_inv_update (s : Simulation) :
  registry_inv s -> registry_inv (update_all_sessions s).
Proof.
  intros [[Hnd Hall] Hlt].
  destruct (update_loop_spec (cur_sessions s) [] s) as (Hl & _ & Hh);
    [done|set_solver|by apply Forall_forall|done|].
  unfold update_all_sessions, registry_inv, wf_registry.
  rewrite update_loop_next_id, Hl. simpl.
  assert (Hsub : forall ref,
    ref ∈ List.filter (survives s) (cur_sessions s) -> ref ∈ cur_sessions s).
  { intros ref Hin. apply list_elem_of_In in Hin. apply filter_In in Hin.
    apply list_elem_of_In. tauto. }
  repeat split.
  - apply NoDup_ListNoDup, List.NoDup_filter. by apply NoDup_ListNoDup.
  - apply Forall_forall. intros ref Hin. apply Hsub in Hin.
    rewrite Hh, bool_decide_eq_true_2 by done.
    rewrite Forall_forall in Hall. destruct (Hall ref Hin) as [o ->].
    by eexists.
  - apply Forall_forall. intros ref Hin. apply Hsub in Hin.
    rewrite Forall_forall in Hlt. by apply Hlt.
Qed.

Lemma registry_inv_append sample (s : Simulation) :
  registry_inv s -> registry_inv (append_session sample s).
Proof.
  intros [[Hnd Hall] Hlt]. rewrite Forall_forall in Hall, Hlt.
  unfold append_session. destruct (get_user (user_pool s)) as [user pool].
  unfold registry_inv, wf_registry. simpl. repeat split.
  - apply NoDup_app. split; [done|]. split; [|apply NoDup_singleton].
    intros ref Hin ->%list_elem_of_singleton. specialize (Hlt _ Hin). lia.
  - apply Forall_forall. intros ref [Hin| ->%list_elem_of_singleton]%elem_of_app.
    + rewrite lookup_insert_ne; [by apply Hall|].
      specialize (Hlt _ Hin). lia.
    + rewrite lookup_insert_eq. by eexists.
  - apply Forall_forall. intros ref [Hin| ->%list_elem_of_singleton]%elem_of_app.
    + specialize (Hlt _ Hin). lia.
    + lia.
Qed.

Lemma registry_inv_create (u : Q) (samples : nat -> Q) (s s' : Simulation) :
  create_sessions u samples s = Ok s' -> registry_inv s -> registry_inv s'.
Proof.
  unfold create_sessions. rewrite n_users_of_eq. unfold_bind.
  intros [= <-]. generalize (seq 0 (Z.to_nat
    (py_int (rate s)
     + (if Qle_bool (py_mod1 (rate s)) (u * 1) then 0 else 1)))).
  intros l. revert s. induction l as [|n l IH]; intros s Hs; simpl; [done|].
  apply IH. by apply registry_inv_append.
Qed.

Lemma registry_inv_wait always_fwd raw (s s' : Simulation) :
  wait always_fwd raw s = Ok s' -> registry_inv s -> registry_inv s'.
Proof.
  intros Hw. apply wait_inv in Hw as (j & _ & _ & _ & _ & Hl & Hh & Hn & _).
  unfold registry_inv, wf_registry. by rewrite Hl, Hh, Hn.
Qed.

(** A pass of the loop of [run] that returns leaves the registry well
    formed, so that the next pass starts on distinct, allocated sessions. *)
Lemma registry_inv_run_step (d : StepDraws) (s s' : Simulation) evs :
  run_step d s = (evs, Ok s') -> registry_inv s -> registry_inv s'.
Proof.
  unfold run_step. intros Hrun Hs.
  apply registry_inv_update in Hs.
  destruct (create_sessions (choice_u d) (growth_samples d)
              (update_all_sessions s)) as [s2|e] eqn:Hc;
    unfold_bind; [|by inversion Hrun].
  apply (registry_inv_create _ _ _ _ Hc) in Hs.
  destruct (wait (always_forward s2) (jitter_raw d) s2) as [s3|e] eqn:Hw;
    [|by inversion Hrun].
  apply (registry_inv_wait _ _ _ _ Hw) in Hs.
  destruct (yield_loop s3 (cur_sessions s3)) as [evs' [e|]];
    inversion Hrun; by subst.
Qed.

End Invariant.

(** ** The run loop *)

Section Run.
Context `{EventModel}.





End Run.

(** ** Serialization *)

Module JsonFacts.

Section pyval_induction.
Variable P : pyval -> Prop.
Hypothesis HNone : P PNone.
Hypothesis HBool : forall b, P (PBool b).
Hypothesis HInt : forall n, P (PInt n).
Hypothesis HFloat : forall r, P (PFloat r).
Hypothesis HStr : forall s, P (PStr s).
Hypothesis HList : forall items, Forall P items -> P (PList items).
Hypothesis HDict :
  forall items, Forall (fun kv => P (snd kv)) items -> P (PDict items).
Hypothesis HDatetime : forall t, P (PDatetime t).
Hypothesis HDate : forall d, P (PDate d).
Hypothesis HObject : forall cls, P (PObject cls).

Fixpoint pyval_ind (v : pyval) : P v :=
  match v with
  | PNone => HNone
  | PBool b => HBool b
  | PInt n => HInt n
  | PFloat r => HFloat r
  | PStr s => HStr s
  | PList items =>
      HList items
        ((fix go (l : list pyval) : Forall P l :=
            match l with
            | [] => List.Forall_nil P
            | x :: l' => @List.Forall_cons _ P x l' (pyval_ind x) (go l')
            end) items)
  | PDict items =>
      HDict items
        ((fix go (l : list (string * pyval))
            : Forall (fun kv => P (snd kv)) l :=
            match l with
            | [] => List.Forall_nil _
            | kv :: l' => @List.Forall_cons _ _ kv l' (pyval_ind (snd kv)) (go l')
            end) items)
  | PDatetime t => HDatetime t
  | PDate d => HDate d
  | PObject cls => HObject cls
  end.

End pyval_induction.

Lemma mapM_returns {A} (f : A -> result string) (l : list A) :
  Forall (fun x => Py.returns (f x)) l -> Py.returns (mapM f l).
Proof.
  induction 1 as [|x l Hx _ IH]; simpl; [exact I|].
  unfold_bind. destruct (f x); [|done]. destruct (mapM f l); done.
Qed.

Lemma find_first_None {A B} (f : A -> option B) (l : list A) :
  find_first f l = None -> Forall (fun x => f x = None) l.
Proof.
  induction l as [|x l IH]; simpl; [constructor|].
  destruct (f x) eqn:Hx; [discriminate|]. intros Hl. constructor; auto.
Qed.

(** A value with nothing unsupported in it is serialized. *)
Lemma dumps_supported (v : pyval) :
  first_unsupported v = None -> Py.returns (dumps json_serial v).
Proof.
  induction v as [ |[]| | | |items IH|items IH| | | ] using pyval_ind;
    simpl; intros Hv; try exact I; try discriminate.
  - apply find_first_None in Hv.
    assert (Hr : Py.returns (mapM (dumps json_serial) items)).
    { apply mapM_returns. rewrite Forall_forall in *. intros x Hx.
      apply IH; [done|]. by apply Hv. }
    unfold_bind. by destruct (mapM (dumps json_serial) items).
  - apply find_first_None in Hv.
    match goal with |- context [mapM ?f items] =>
      assert (Hr : Py.returns (mapM f items)) end.
    { apply mapM_returns. rewrite Forall_forall in *. intros x Hx.
      specialize (IH x Hx (Hv x Hx)). unfold_bind.
      by destruct (dumps json_serial (snd x)). }
    unfold_bind.
    match goal with |- context [mapM ?f items] => by destruct (mapM f items) end.
Qed.

Lemma mapM_outcome {A} (f g : A -> result string) (u : A -> option pyval)
    (r : A -> A) (l : list A) :
  (forall x, u x = None -> Py.returns (f x)) ->
  Forall (fun x => f x = match u x with
                         | Some o => Raise (not_serializable o)
                         | None => g (r x)
                         end) l ->
  mapM f l = match find_first u l with
             | Some o => Raise (not_serializable o)
             | None => mapM g (map r l)
             end.
Proof.
  intros Hret. induction 1 as [|x l Hx _ IH]; simpl; [reflexivity|].
  pose proof (Hret x) as Hrx.
  rewrite IH. destruct (u x); [by rewrite Hx|].
  specialize (Hrx eq_refl). rewrite <- Hx. unfold_bind.
  destruct (f x); [|destruct Hrx].
  destruct (find_first u l); reflexivity.
Qed.

(** [dumps] with the hook of the module: it raises on the first unsupported
    value, with the error of the hook, and otherwise gives the text of the
    value with its timestamps in ISO form. *)
Lemma dumps_json_serial (v : pyval) : dumps json_serial v = outcome v.
Proof.
  induction v as [ | | | | |items IH|items IH| | | ] using pyval_ind;
    try reflexivity; unfold outcome; simpl.
  - rewrite (mapM_outcome _ (dumps no_hook) first_unsupported render_timestamps).
    + destruct (find_first first_unsupported items); reflexivity.
    + apply dumps_supported.
    + exact IH.
  - rewrite (mapM_outcome _
        (fun kv => t ← dumps no_hook (snd kv);
                   Ok (encode_str (fst kv) +:+ ": " +:+ t))
        (fun kv => first_unsupported (snd kv))
        (fun kv => (fst kv, render_timestamps (snd kv)))).
    + destruct (find_first _ items); reflexivity.
    + intros [k x] Hx. simpl in *. apply dumps_supported in Hx.
      unfold_bind. by destruct (dumps json_serial x).
    + eapply Forall_impl; [exact IH|]. intros [k x] Hx. simpl in *.
      rewrite Hx. unfold outcome. destruct (first_unsupported x); reflexivity.
Qed.

Lemma all_upto_spec (f : Z -> bool) (n : nat) : forall z0,
  all_upto f n z0 = true ->
  forall z, z0 <= z < z0 + Z.of_nat n -> f z = true.
Proof.
  induction n as [|n IH]; intros z0 Hall z Hz; [lia|]. simpl in Hall.
  destruct (f z0) eqn:Hf; [|discriminate].
  destruct (Z.eq_dec z z0) as [->|Hne]; [exact Hf|].
  apply (IH (z0 + 1) Hall). lia.
Qed.

Lemma pad2_digits (n : Z) : 0 <= n <= 99 -> pad 2 n = digits2 n.
Proof.
  intros Hn. apply String.eqb_eq.
  apply (all_upto_spec (fun n => String.eqb (pad 2 n) (digits2 n))
                       (Z.to_nat 100) 0); [|lia].
  vm_compute. reflexivity.
Qed.

Lemma pad4_digits (n : Z) : 0 <= n <= 9999 -> pad 4 n = digits4 n.
Proof.
  intros Hn. apply String.eqb_eq.
  apply (all_upto_spec (fun n => String.eqb (pad 4 n) (digits4 n))
                       (Z.to_nat 10000) 0); [|lia].
  vm_compute. reflexivity.
Qed.

(** The text of a date is four digits, two digits and two digits between
    hyphens. *)
Lemma date_isoformat_layout (d : date) :
  valid_date d -> date_isoformat d = iso_date_layout d.
Proof.
  intros (Hy & Hm & Hd). unfold date_isoformat, iso_date_layout.
  by rewrite pad4_digits, !pad2_digits by lia.
Qed.

Lemma append_assoc (a b c : string) : (a +:+ b) +:+ c = a +:+ (b +:+ c).
Proof.
  induction a as [|x a IH]; [reflexivity|].
  change (String x ((a +:+ b) +:+ c) = String x (a +:+ b +:+ c)).
  by rewrite IH.
Qed.

(** The text of a datetime is the date, a T and the time of day with
    colons, followed by a point and six digits when the microseconds are
    not zero. *)
Lemma datetime_isoformat_layout (t : datetime) :
  valid_time t ->
  datetime_isoformat t
  = iso_seconds_layout t +:+
    (if microsecond t =? 0 then EmptyString
     else "." +:+ pad 6 (microsecond t)).
Proof.
  intros (Hd & Hh & Hm & Hs). unfold datetime_isoformat, iso_seconds_layout.
  rewrite (date_isoformat_layout _ Hd), !pad2_digits by lia.
  by rewrite !append_assoc.
Qed.

Lemma escape_char_plain (c : ascii) :
  plain_char c = true -> escape_char c = String c EmptyString.
Proof.
  unfold plain_char, escape_char. set (n := N_of_ascii c).
  intros Hp.
  destruct (N.leb_spec 32 n); [|done]. destruct (N.leb_spec n 126); [|done].
  destruct (N.eqb_spec n 34); [done|]. destruct (N.eqb_spec n 92); [done|].
  clear Hp.
  destruct (N.eqb_spec n 10); [lia|]. destruct (N.eqb_spec n 13); [lia|].
  destruct (N.eqb_spec n 9); [lia|]. destruct (N.eqb_spec n 8); [lia|].
  destruct (N.eqb_spec n 12); [lia|].
  destruct (N.ltb_spec n 32); [lia|]. destruct (N.ltb_spec 126 n); [lia|].
  reflexivity.
Qed.

(** A string of plain characters is copied between two double quotes. *)
Lemma encode_str_plain (s : string) :
  plain s = true ->
  encode_str s = String quote (s +:+ String quote EmptyString).
Proof.
  intros Hp.
  assert (He : escape s = s).
  { induction s as [|c s IH]; [reflexivity|].
    simpl in Hp. apply andb_prop in Hp as [Hc Hs].
    cbn [escape]. rewrite (escape_char_plain c Hc).
    change (String c (escape s) = String c s). by rewrite IH. }
  unfold encode_str. rewrite He. reflexivity.
Qed.

End JsonFacts.
Import JsonFacts.

Lemma plain_app (a b : string) : plain (a +:+ b) = plain a && plain b.
Proof.
  induction a as [|c a IH]; [reflexivity|].
  change (plain_char c && plain (a +:+ b)
          = plain_char c && plain a && plain b).
  rewrite IH. by rewrite andb_assoc.
Qed.

Lemma plain_digit (d : Z) : 0 <= d <= 9 -> plain_char (digit d) = true.
Proof.
  intros Hd.
  assert (Hc : d = 0 \/ d = 1 \/ d = 2 \/ d = 3 \/ d = 4 \/ d = 5 \/
               d = 6 \/ d = 7 \/ d = 8 \/ d = 9) by lia.
  repeat (destruct Hc as [-> | Hc]; [reflexivity|]). by subst.
Qed.

Lemma plain_digits2 (n : Z) : 0 <= n <= 99 -> plain (digits2 n) = true.
Proof.
  intros Hn. unfold digits2. cbn [plain].
  rewrite !plain_digit; [reflexivity| |]; Z.div_mod_to_equations; lia.
Qed.

Lemma plain_digits4 (n : Z) : 0 <= n <= 9999 -> plain (digits4 n) = true.
Proof.
  intros Hn. unfold digits4. cbn [plain].
  rewrite plain_digits2 by (Z.div_mod_to_equations; lia).
  rewrite !plain_digit; [reflexivity| |]; Z.div_mod_to_equations; lia.
Qed.

Lemma plain_iso_seconds_layout (t : datetime) :
  valid_time t -> plain (iso_seconds_layout t) = true.
Proof.
  intros ((Hy & Hm & Hd) & Hh & Hmi & Hs).
  unfold iso_seconds_layout, iso_date_layout.
  rewrite !plain_app, plain_digits4, !plain_digits2 by lia. reflexivity.
Qed.

Section Format.
Context `{EventModel}.

(** C9: with [yield_as_json] set, the event of a session is the JSON text
    of its record with each timestamp in its ISO 8601 form; a record that
    holds an object that is neither known to the encoder nor a timestamp
    makes [yield_event] raise a [TypeError] whose message names the class
    of that object; with the flag unset the record itself is the event.
    The ISO 8601 form of a date is YYYY-MM-DD, that of a timestamp
    YYYY-MM-DDTHH:MM:SS, followed by a dot and six digits of microseconds
    when these are not zero; a record of one timestamp is the text of its
    key and of that form, each in double quotes, between braces; the text
    of [sample_record] is [sample_text]. *)
Theorem yield_event_formats (s : Simulation) (x : Session) :
  (yield_as_json s = false -> yield_event s x = Ok (AsDict (asdict x))) /\
  (yield_as_json s = true ->
     match first_unsupported (PDict (asdict x)) with
     | None =>
         exists text,
           yield_event s x = Ok (AsJson text) /\
           dumps no_hook (render_timestamps (PDict (asdict x))) = Ok text
     | Some o =>
         yield_event s x
         = Raise (TypeError ("Type " +:+ type_str o +:+ " not serializable"))
     end) /\
  (forall obj,
     json_serial obj
     = match obj with
       | PDatetime t => Ok (datetime_isoformat t)
       | PDate d => Ok (date_isoformat d)
       | _ => Raise (TypeError ("Type " +:+ type_str obj
                                +:+ " not serializable"))
       end) /\
  (forall cls, type_str (PObject cls) = "<class '" +:+ cls +:+ "'>") /\
  (forall d, valid_date d -> date_isoformat d = iso_date_layout d) /\
  (forall t, valid_time t ->
     datetime_isoformat t
     = iso_seconds_layout t +:+
       (if microsecond t =? 0 then EmptyString
        else "." +:+ pad 6 (microsecond t))) /\
  (forall k t,
     plain k = true -> valid_time t -> microsecond t = 0 ->
     asdict x = [(k, PDatetime t)] -> yield_as_json s = true ->
     yield_event s x
     = Ok (AsJson ("{" +:+ (in_quotes k +:+ ": " +:+
                            in_quotes (iso_seconds_layout t)) +:+ "}"))) /\
  dumps json_serial (PDict sample_record) = Ok sample_text /\
  (asdict x = sample_record -> yield_as_json s = true ->
   yield_event s x = Ok (AsJson sample_text)) /\
  (asdict x = [("price", PObject "decimal.Decimal")] ->
   yield_as_json s = true ->
   yield_event s x
   = Raise (TypeError "Type <class 'decimal.Decimal'> not serializable")).
Proof.
  split; [|split; [|split; [|split; [|split; [|split; [|split; [|split;
    [|split]]]]]]]];
    [| | |reflexivity|apply date_isoformat_layout
     |apply datetime_isoformat_layout| |vm_compute; reflexivity| |].
  4: { intros k t Hk Ht Hus Hrec Hj. unfold yield_event. rewrite Hj, Hrec.
       cbn [dumps mapM fst snd json_serial]. unfold_bind.
       rewrite (datetime_isoformat_layout t Ht), Hus. cbn [Z.eqb].
       assert (Hnil : forall a : string, a +:+ EmptyString = a).
       { intros a. induction a as [|c a IH]; [reflexivity|].
         change (String c (a +:+ EmptyString) = String c a). by rewrite IH. }
       rewrite Hnil.
       rewrite (encode_str_plain k Hk).
       rewrite (encode_str_plain _ (plain_iso_seconds_layout t Ht)).
       reflexivity. }
  4: { intros Hrec Hj. unfold yield_event. rewrite Hj, Hrec.
       vm_compute. reflexivity. }
  4: { intros Hrec Hj. unfold yield_event. rewrite Hj, Hrec.
       vm_compute. reflexivity. }
  - intros Hj. unfold yield_event. by rewrite Hj.
  - intros Hj. unfold yield_event. rewrite Hj.
    pose proof (dumps_json_serial (PDict (asdict x))) as Hd.
    unfold outcome in Hd.
    destruct (first_unsupported (PDict (asdict x))) as [o|] eqn:Hu.
    + rewrite Hd. reflexivity.
    + pose proof (dumps_supported _ Hu) as Hr.
      destruct (dumps json_serial (PDict (asdict x))) as [text|e];
        [|destruct Hr].
      exists text. split; [reflexivity|]. by rewrite <- Hd.
  - intros obj. destruct obj; try reflexivity.
Qed.

End Format.

(** An event with a timestamp, and one with a decimal in it. *)
Example dumps_timestamp :
  dumps json_serial
    (PDict [("event_timestamp",
             PDatetime {| on := {| year := 2020; month := 1; day := 2 |};
                          hour := 3; minute := 4; second := 5;
                          microsecond := 0 |});
            ("page_url_path", PStr "/home")])
  = Ok ("{" +:+ encode_str "event_timestamp" +:+ ": "
        +:+ encode_str "2020-01-02T03:04:05" +:+ ", "
        +:+ encode_str "page_url_path" +:+ ": " +:+ encode_str "/home" +:+ "}").
Proof. vm_compute. reflexivity. Qed.

Example dumps_decimal :
  dumps json_serial (PDict [("price", PObject "decimal.Decimal")])
  = Raise (TypeError "Type <class 'decimal.Decimal'> not serializable").
Proof. vm_compute. reflexivity. Qed.

(** ** Steps of one, two and three seconds *)

Section SmallSteps.
Context `{EventModel}.


End SmallSteps.

(** * Further properties of the engine *)

(** ** Reports *)

Section ReportFacts.
Context `{Domain}.

(** X1: the days, hours, minutes and seconds that [get_duration_str] prints
    add up to the whole seconds of the time elapsed since [init_time], with
    hours below 24 and minutes and seconds below 60; the days are negative
    exactly when the clock is before [init_time]. *)
Theorem duration_parts_decompose (s : Simulation) :
  let '(days, hours, minutes, seconds) := duration_parts s in
  days * 86400 + hours * 3600 + minutes * 60 + seconds
    = (cur_time s - init_time s) / us_per_second /\
  0 <= hours < 24 /\ 0 <= minutes < 60 /\ 0 <= seconds < 60 /\
  (0 <= days <-> init_time s <= cur_time s).
Proof.
  unfold duration_parts, get_curr_duration, td_days, td_seconds.
  unfold us_per_day, us_per_hour, us_per_second.
  set (d := cur_time s - init_time s).
  assert (Hd : init_time s <= cur_time s <-> 0 <= d) by (subst d; lia).
  rewrite Hd. clearbody d. clear Hd.
  change (24 * (3600 * 1000000)) with 86400000000.
  repeat split; Z.div_mod_to_equations; lia.
Qed.

End ReportFacts.

(** ** The rate *)

Section RateFacts.
Context `{EventModel}.

Lemma get_rate_per_step_value (s : Simulation) r :
  get_rate_per_step s = Ok r ->
  exists v, visits_per_hour (config s) !! hour_of (cur_time s) = Some v /\
    batch_size s <> 0 /\
    (r == v * inject_Z (sessions_per_day s) * inject_Z (batch_size s)
          / 3600)%Q.
Proof.
  unfold get_rate_per_step, get_steps_per_hour, py_div.
  destruct (visits_per_hour (config s) !! hour_of (cur_time s)) as [v|];
    [|discriminate].
  unfold_bind.
  destruct (Qeq_bool (inject_Z (batch_size s)) 0) eqn:Hq; [discriminate|].
  assert (Hnz : ~ (inject_Z (batch_size s) == 0)%Q).
  { intros Hz. apply Qeq_bool_iff in Hz. congruence. }
  destruct (Qeq_bool (3600 / inject_Z (batch_size s)) 0); [discriminate|].
  intros [= <-]. exists v. split; [done|]. split.
  - intros Hb. apply Hnz. by rewrite Hb.
  - field. exact Hnz.
Qed.

Lemma rate_sign (s : Simulation) r :
  curve_nonneg (config s) -> 0 <= sessions_per_day s ->
  get_rate_per_step s = Ok r ->
  (0 < batch_size s -> (0 <= r)%Q) /\ (batch_size s < 0 -> (r <= 0)%Q).
Proof.
  intros Hc Hspd Hr.
  apply get_rate_per_step_value in Hr as (v & Hv & Hb & Heq).
  apply Hc in Hv. rewrite Heq.
  assert (Hs : (0 <= inject_Z (sessions_per_day s))%Q).
  { unfold Qle. simpl. lia. }
  assert (Hvs : (0 <= v * inject_Z (sessions_per_day s))%Q)
    by (by apply Qmult_le_0_compat).
  unfold Qdiv. change (/ 3600)%Q with (1 # 3600)%Q.
  split; intros Hsign.
  - assert (Hbq : (0 <= inject_Z (batch_size s))%Q).
    { unfold Qle. simpl. lia. }
    pose proof (Qmult_le_0_compat _ _ Hvs Hbq). lra.
  - assert (Hbq : (0 <= - inject_Z (batch_size s))%Q).
    { unfold Qle. simpl. lia. }
    pose proof (Qmult_le_0_compat _ _ Hvs Hbq). lra.
Qed.

(** X3: with a curve without negative entries and a number of sessions per
    day that is not negative, the rate [get_rate_per_step] returns has the
    sign of the step size: not negative for a positive step, not positive
    for a negative one. *)
Theorem get_rate_per_step_sign (s : Simulation) r :
  curve_nonneg (config s) -> 0 <= sessions_per_day s ->
  get_rate_per_step s = Ok r ->
  (0 < batch_size s -> (0 <= r)%Q) /\ (batch_size s < 0 -> (r <= 0)%Q).
Proof. apply rate_sign. Qed.

End RateFacts.

(** ** The clock *)

Section ClockFacts.
Context `{EventModel}.

(** X4: a call of [wait] that returns was made with a step size of at
    least 4: for every smaller one, zero and the negative ones included, it
    raises. With a step size of at least 4 it returns when the curve covers
    the 24 hours and the values are in the range of their library types: the
    clock, before the call and after the longest step, in the range of
    [datetime], and the sessions per day in the range of a float. *)
Theorem wait_returns_when always_fwd raw (s : Simulation) :
  (Py.returns (wait always_fwd raw s) -> 4 <= batch_size s) /\
  (4 <= batch_size s ->
   curve_complete (config s) ->
   fits_datetime (cur_time s) ->
   fits_datetime (cur_time s + high_step s * us_per_second) ->
   fits_float (sessions_per_day s) ->
   Py.returns (wait always_fwd raw s)).
Proof.
  split.
  - intros Hr. destruct (Z.le_gt_cases 4 (batch_size s)) as [|Hlt]; [done|].
    rewrite wait_raises_small in Hr by lia. destruct Hr.
  - intros Hb Hc _ _ _. destruct (wait_advances always_fwd raw s Hb Hc)
      as (s' & j & -> & _). exact I.
Qed.

Lemma wait_rate_synced always_fwd raw (s s' : Simulation) :
  wait always_fwd raw s = Ok s' -> rate_synced s'.
Proof.
  unfold wait. unfold_bind.
  destruct (randrange _ _ raw) as [j|]; [|discriminate].
  match goal with |- context [get_rate_per_step ?x] =>
    destruct (get_rate_per_step x) as [r|e] eqn:Hr; [|discriminate] end.
  intros [= <-]. exact Hr.
Qed.

(** A call of [wait] that returns was made with a step of 4 or more. *)
Lemma wait_returns_large always_fwd raw (s s' : Simulation) :
  wait always_fwd raw s = Ok s' -> 4 <= batch_size s.
Proof.
  intros Hw. destruct (Z.le_gt_cases 4 (batch_size s)) as [|Hlt]; [done|].
  rewrite wait_raises_small in Hw by lia. discriminate.
Qed.

Lemma wait_step_bounds always_fwd raw (s s' : Simulation) :
  wait always_fwd raw s = Ok s' ->
  0 < low_step s /\
  low_step s * us_per_second <= cur_time s' - cur_time s
    <= high_step s * us_per_second.
Proof.
  intros Hw. pose proof (wait_returns_large _ _ _ _ Hw) as Hb4.
  destruct (wait_inv _ _ _ _ Hw) as (j & Hj & Ht & _).
  pose proof (jitter_bound_large _ Hb4) as [Hm Hlt].
  unfold low_step, high_step, us_per_second in *.
  destruct always_fwd; lia.
Qed.

(** X5: a call of [wait] that returns has moved the clock forward, by at
    least the step size less its three tenths and by less than the step size
    plus its three tenths (by at least the step size with the forward flag);
    it has stored the rate of the new hour and has left the registry, the
    sessions, the start time and the horizon as they were. *)
Theorem wait_moves_forward always_fwd raw (s s' : Simulation) :
  wait always_fwd raw s = Ok s' ->
  cur_time s < cur_time s' /\
  low_step s * us_per_second <= cur_time s' - cur_time s
    <= high_step s * us_per_second /\
  (always_fwd = true ->
   batch_size s * us_per_second <= cur_time s' - cur_time s) /\
  rate_synced s' /\
  cur_sessions s' = cur_sessions s /\ heap s' = heap s /\
  init_time s' = init_time s /\ stop_time s' = stop_time s /\
  batch_size s' = batch_size s.
Proof.
  intros Hw.
  pose proof (wait_rate_synced _ _ _ _ Hw) as Hsync.
  pose proof (wait_returns_large _ _ _ _ Hw) as Hb4.
  destruct (wait_inv _ _ _ _ Hw)
    as (j & Hj & Ht & Hi & Hb & Hl & Hh & _ & Hst & _).
  pose proof (jitter_bound_large _ Hb4) as [Hm Hlt].
  unfold low_step, high_step, us_per_second in *.
  repeat split; try done; try (destruct always_fwd; lia).
Qed.

End ClockFacts.

(** ** The constructor *)

Lemma timedelta_days_whole (n : Z) : timedelta_days (inject_Z n) = n * us_per_day.
Proof.
  unfold timedelta_days, divide_and_round, inject_Z. cbn [Qnum Qden].
  rewrite Z.div_1_r, Z.mod_1_r. reflexivity.
Qed.

Section ConstructorFacts.
Context `{EventModel}.

Lemma Simulation_init_synced loaded_at now a (s : Simulation) :
  Simulation_init loaded_at now a = Ok s -> rate_synced s /\ qty_events s = 0.
Proof.
  unfold Simulation_init.
  destruct (Qle_bool (arg_sim_days a) 0); [discriminate|]. unfold_bind.
  match goal with |- context [get_rate_per_step ?x] =>
    destruct (get_rate_per_step x) as [r|e] eqn:Hr; [|discriminate] end.
  intros [= <-]. split; [exact Hr|reflexivity].
Qed.

(** X6: a simulation the constructor returns has its clock at [init_time],
    an empty registry and no objects, a horizon that is not negative and is
    exactly the number of days for a whole number of days, the rate of the
    starting hour, an event counter at zero, and the step size, growth mode
    and flags it was given. *)
Theorem Simulation_init_post loaded_at now a (s : Simulation) :
  Simulation_init loaded_at now a = Ok s ->
  cur_time s = init_time s /\
  cur_sessions s = [] /\ heap s = ∅ /\
  init_time s <= stop_time s /\
  (forall n : Z, arg_sim_days a = inject_Z n ->
     stop_time s = init_time s + n * us_per_day) /\
  rate_synced s /\ qty_events s = 0 /\
  batch_size s = arg_batch_size a /\
  sessions_per_day s = arg_sessions_per_day a /\
  growth s = arg_growth a /\
  always_forward s = arg_always_forward a /\
  yield_as_json s = arg_yield_as_json a.
Proof.
  intros Hs.
  pose proof (Simulation_init_horizon _ _ _ _ Hs) as Hh.
  pose proof (Simulation_init_synced _ _ _ _ Hs) as [Hsync Hq].
  pose proof (Simulation_init_inv _ _ _ _ Hs) as (_ & _ & Hc & Hstop & Hb & Hl).
  repeat split; try done.
  - revert Hs. unfold Simulation_init.
    destruct (Qle_bool (arg_sim_days a) 0); [discriminate|]. unfold_bind.
    match goal with |- context [get_rate_per_step ?x] =>
      destruct (get_rate_per_step x); [|discriminate] end.
    by intros [= <-].
  - intros n Hn. by rewrite Hstop, Hn, timedelta_days_whole.
  - revert Hs. unfold Simulation_init.
    destruct (Qle_bool (arg_sim_days a) 0); [discriminate|]. unfold_bind.
    match goal with |- context [get_rate_per_step ?x] =>
      destruct (get_rate_per_step x); [|discriminate] end.
    by intros [= <-].
  - revert Hs. unfold Simulation_init.
    destruct (Qle_bool (arg_sim_days a) 0); [discriminate|]. unfold_bind.
    match goal with |- context [get_rate_per_step ?x] =>
      destruct (get_rate_per_step x); [|discriminate] end.
    by intros [= <-].
  - revert Hs. unfold Simulation_init.
    destruct (Qle_bool (arg_sim_days a) 0); [discriminate|]. unfold_bind.
    match goal with |- context [get_rate_per_step ?x] =>
      destruct (get_rate_per_step x); [|discriminate] end.
    by intros [= <-].
  - revert Hs. unfold Simulation_init.
    destruct (Qle_bool (arg_sim_days a) 0); [discriminate|]. unfold_bind.
    match goal with |- context [get_rate_per_step ?x] =>
      destruct (get_rate_per_step x); [|discriminate] end.
    by intros [= <-].
Qed.

End ConstructorFacts.

(** ** Arrivals and the registry *)

Section RegistryFacts.
Context `{EventModel}.

Lemma randomize_sess_ts_bounds (s : Simulation) (sample : Q) :
  init_time s <= stop_time s -> sample_ok (growth s) sample ->
  init_time s <= randomize_sess_ts sample s <= stop_time s.
Proof.
  intros Hh Hs. unfold randomize_sess_ts.
  pose proof (growth_ratio_range _ _ Hs) as Hr.
  pose proof (timedelta_rmul_range _ (stop_time s - init_time s) Hr
                ltac:(lia)). lia.
Qed.

Lemma append_sessions_objects (samples : nat -> Q) (l : list nat) :
  forall s : Simulation,
  let s' := fold_left (fun s n => append_session (samples n) s) l s in
  (forall ref, (ref < next_id s)%nat -> heap s' !! ref = heap s !! ref) /\
  (forall ref, (next_id s <= ref < next_id s')%nat ->
     exists n user,
       heap s' !! ref
       = Some (Event_init (randomize_sess_ts (samples n) s) user
                 (batch_size s) (always_forward s) (config s))).
Proof.
  induction l as [|n l IH]; intros s; simpl.
  - split; [done|]. intros ref Href. lia.
  - destruct (IH (append_session (samples n) s)) as [Hold Hnew].
    destruct (append_session_spec (samples n) s) as (_ & Hn & Hr).
    apply registry_only_settings in Hr
      as (Hb & Haf & Hi & _ & Hst & Hcfg & _ & Hg & _).
    assert (Hheap : forall ref, ref <> next_id s ->
      heap (append_session (samples n) s) !! ref = heap s !! ref).
    { intros ref Hne. unfold append_session.
      destruct (get_user (user_pool s)). simpl. by apply lookup_insert_ne. }
    assert (Hobj : exists user,
      heap (append_session (samples n) s) !! next_id s
      = Some (Event_init (randomize_sess_ts (samples n) s) user
                (batch_size s) (always_forward s) (config s))).
    { unfold append_session. destruct (get_user (user_pool s)) as [user pool].
      simpl. exists user. apply lookup_insert_eq. }
    split.
    + intros ref Href. rewrite Hold by lia. apply Hheap. lia.
    + intros ref Href. destruct (decide (ref = next_id s)) as [->|Hne].
      * rewrite Hold by lia. destruct Hobj as [user Hu]. by exists n, user.
      * destruct (Hnew ref ltac:(lia)) as (m & user & Hm).
        exists m, user. rewrite Hm, Hb, Haf, Hcfg.
        unfold randomize_sess_ts. by rewrite Hi, Hst, Hg.
Qed.

(** X7: [create_sessions] returns for every rate; it appends new, distinct
    references behind the registry it found, leaves the sessions that
    existed, the clock and the rate as they were, and appends nothing when
    the rate is -1 or less; with a rate between -1 and 0 it appends one
    session when the draw falls below the rate modulo 1, and none
    otherwise. *)
Theorem create_sessions_grows (u : Q) (samples : nat -> Q) (s : Simulation) :
  exists s',
    create_sessions u samples s = Ok s' /\
    let n := Z.to_nat (arrivals (rate s) u) in
    cur_sessions s' = cur_sessions s ++ seq (next_id s) n /\
    next_id s' = (next_id s + n)%nat /\
    (forall ref, (ref < next_id s)%nat -> heap s' !! ref = heap s !! ref) /\
    cur_time s' = cur_time s /\ rate s' = rate s /\
    ((rate s <= -1)%Q -> n = O) /\
    ((-1 < rate s)%Q -> (rate s < 0)%Q ->
     (n = 1%nat <-> (u < py_mod1 (rate s))%Q) /\ (n <= 1)%nat).
Proof.
  destruct (create_sessions_spec u samples s) as (s' & Hs' & Hl & Hr).
  exists s'. split; [exact Hs'|]. cbv zeta.
  split; [exact Hl|].
  assert (Hfold : s' = fold_left (fun s n => append_session (samples n) s)
                         (seq 0 (Z.to_nat (arrivals (rate s) u))) s).
  { revert Hs'. unfold create_sessions, arrivals. rewrite n_users_of_eq.
    unfold_bind. by intros [= <-]. }
  destruct (append_sessions_spec samples
              (seq 0 (Z.to_nat (arrivals (rate s) u))) s) as (_ & Hn & _).
  destruct (append_sessions_objects samples
              (seq 0 (Z.to_nat (arrivals (rate s) u))) s) as [Hold _].
  cbv zeta in Hn, Hold. rewrite <- Hfold in Hn, Hold.
  rewrite length_seq in Hn.
  apply registry_only_settings in Hr as (_ & _ & _ & Ht & _ & _ & Hrate & _).
  split; [exact Hn|]. split; [exact Hold|]. split; [exact Ht|].
  split; [exact Hrate|].
  assert (Ha : arrivals (rate s) u
               = py_int (rate s)
                 + (if Qle_bool (py_mod1 (rate s)) (u * 1) then 0 else 1)).
  { unfold arrivals. by rewrite n_users_of_eq. }
  assert (Hneg : (rate s < 0)%Q -> py_int (rate s) = Qceiling (rate s)).
  { intros Hlt. unfold py_int.
    destruct (Qle_bool 0 (rate s)) eqn:Hq; [|done].
    apply Qle_bool_iff in Hq. exfalso. by apply (Qlt_not_le _ _ Hlt). }
  split.
  - intros Hle. rewrite Ha, Hneg by lra.
    assert (Qceiling (rate s) <= -1).
    { pose proof (Qceiling_resp_le _ _ Hle) as Hc.
      change (Qceiling (-1)%Q) with (-1) in Hc. exact Hc. }
    destruct (Qle_bool (py_mod1 (rate s)) (u * 1)); lia.
  - intros Hgt Hlt. rewrite Ha, Hneg by done.
    assert (Hc : Qceiling (rate s) = 0).
    { pose proof (Qceiling_resp_le _ _ (Qlt_le_weak _ _ Hlt)) as Hu.
      change (Qceiling 0) with 0 in Hu.
      pose proof (Qle_ceiling (rate s)) as Hl'.
      pose proof (Qlt_le_trans _ _ _ Hgt Hl') as Hl2.
      unfold Qlt in Hl2. simpl in Hl2. lia. }
    rewrite Hc.
    assert (Hle : Qle_bool (py_mod1 (rate s)) (u * 1) = true
                  <-> (py_mod1 (rate s) <= u)%Q).
    { rewrite Qle_bool_iff, Qmult_1_r. reflexivity. }
    destruct (Qle_bool (py_mod1 (rate s)) (u * 1)) eqn:Hb; simpl.
    + split; [|lia]. split; [discriminate|]. intros Hu. exfalso.
      apply (Qlt_not_le _ _ Hu). by apply Hle.
    + split; [|lia]. split; [|done]. intros _. apply Qnot_le_lt.
      intros Hu. apply Hle in Hu. discriminate Hu.
Qed.

Lemma nth_user_next (pool : UserPool) (k : nat) :
  nth_user (snd (get_user pool)) k = nth_user pool (S k).
Proof. unfold nth_user, pool_after. by rewrite Nat.iter_succ_r. Qed.

(** The [k]-th pass of the loop of [create_sessions] stores, under the
    [k]-th new reference, the session built from the [k]-th timestamp and
    the [k]-th user taken from the pool. *)
Lemma append_sessions_indexed (samples : nat -> Q) (len : nat) :
  forall (a : nat) (s : Simulation),
  let s' := fold_left (fun s n => append_session (samples n) s)
                      (seq a len) s in
  user_pool s' = pool_after (user_pool s) len /\
  forall k, (k < len)%nat ->
    heap s' !! (next_id s + k)%nat
    = Some (Event_init (randomize_sess_ts (samples (a + k)%nat) s)
              (nth_user (user_pool s) k)
              (batch_size s) (always_forward s) (config s)).
Proof.
  induction len as [|len IH]; intros a s; simpl.
  - split; [reflexivity|]. intros k Hk. lia.
  - set (s1 := append_session (samples a) s).
    destruct (IH (S a) s1) as [Hpool Hobj].
    destruct (append_sessions_objects samples (seq (S a) len) s1)
      as [Hold _]. cbv zeta in Hold.
    destruct (append_session_spec (samples a) s) as (_ & Hn & Hr).
    fold s1 in Hn, Hr.
    apply registry_only_settings in Hr
      as (Hb & Haf & Hi & _ & Hst & Hcfg & _ & Hg & _).
    assert (Hp1 : user_pool s1 = snd (get_user (user_pool s))).
    { subst s1. unfold append_session.
      by destruct (get_user (user_pool s)). }
    assert (Hfirst : heap s1 !! next_id s
      = Some (Event_init (randomize_sess_ts (samples a) s)
                (fst (get_user (user_pool s)))
                (batch_size s) (always_forward s) (config s))).
    { subst s1. unfold append_session.
      destruct (get_user (user_pool s)) as [user pool]. simpl.
      apply lookup_insert_eq. }
    split.
    + rewrite Hpool, Hp1. unfold pool_after. symmetry.
      exact (Nat.iter_succ_r len (fun p => snd (get_user p)) (user_pool s)).
    + intros [|k] Hk.
      * rewrite !Nat.add_0_r. rewrite Hold by lia. exact Hfirst.
      * replace (next_id s + S k)%nat with (next_id s1 + k)%nat by lia.
        rewrite (Hobj k ltac:(lia)), Hb, Haf, Hcfg, Hp1, nth_user_next.
        replace (S a + k)%nat with (a + S k)%nat by lia.
        unfold randomize_sess_ts. by rewrite Hi, Hst, Hg.
Qed.

(** X8: the [k]-th session [create_sessions] creates is the object the
    [Event] constructor builds from the timestamp [randomize_sess_ts] draws
    in the [k]-th pass, the [k]-th user taken from the pool, and the step
    size, the forward flag and the configuration of the simulation; it is
    stored under the [k]-th new reference, its timestamp is inside
    [init_time, stop_time], and the pool is left as the takes left it. *)
Theorem created_sessions_in_horizon (u : Q) (samples : nat -> Q)
    (s s' : Simulation) :
  init_time s <= stop_time s ->
  (forall n, sample_ok (growth s) (samples n)) ->
  create_sessions u samples s = Ok s' ->
  let n := Z.to_nat (arrivals (rate s) u) in
  user_pool s' = pool_after (user_pool s) n /\
  forall k, (k < n)%nat ->
    heap s' !! (next_id s + k)%nat
    = Some (Event_init (randomize_sess_ts (samples k) s)
              (nth_user (user_pool s) k)
              (batch_size s) (always_forward s) (config s)) /\
    init_time s <= randomize_sess_ts (samples k) s <= stop_time s.
Proof.
  intros Hh Hok Hs'. cbv zeta.
  assert (Hfold : s' = fold_left (fun s n => append_session (samples n) s)
                         (seq 0 (Z.to_nat (arrivals (rate s) u))) s).
  { revert Hs'. unfold create_sessions, arrivals. rewrite n_users_of_eq.
    unfold_bind. by intros [= <-]. }
  destruct (append_sessions_indexed samples
              (Z.to_nat (arrivals (rate s) u)) O s) as [Hpool Hnew].
  cbv zeta in Hpool, Hnew. rewrite <- Hfold in Hpool, Hnew.
  split; [exact Hpool|]. intros k Hk.
  split; [exact (Hnew k Hk)|]. by apply randomize_sess_ts_bounds.
Qed.

Lemma list_remove_sublist (x : nat) (l : list nat) : list_remove x l `sublist_of` l.
Proof.
  induction l as [|y l IH]; simpl; [done|].
  case_bool_decide; [by apply sublist_cons|by apply sublist_skip].
Qed.

Lemma update_loop_shrinks snapshot : forall s : Simulation,
  cur_sessions (fst (update_loop snapshot s)) `sublist_of` cur_sessions s /\
  (forall ref, ref ∉ snapshot ->
     heap (fst (update_loop snapshot s)) !! ref = heap s !! ref).
Proof.
  induction snapshot as [|r rest IH]; intros s; simpl; [done|].
  assert (H1 : cur_sessions (fst (update_session s r))
               `sublist_of` cur_sessions s /\
          forall ref, ref <> r ->
            heap (fst (update_session s r)) !! ref = heap s !! ref).
  { unfold update_session. destruct (heap s !! r) as [o|]; simpl; [|done].
    split.
    - destruct (is_active _); [done|apply list_remove_sublist].
    - intros ref Hne. by apply lookup_insert_ne. }
  destruct (update_session s r) as [s1 c1]. simpl in H1.
  destruct H1 as [Hsub1 Hheap1].
  specialize (IH s1). destruct (update_loop rest s1) as [s2 c2]. simpl in *.
  destruct IH as [Hsub2 Hheap2]. split.
  - by etransitivity.
  - intros ref Hnot. rewrite Hheap2 by set_solver. apply Hheap1. set_solver.
Qed.

(** X9: [update_all_sessions] never adds a session and never reorders the
    registry: what it leaves is a sublist of what it found, whatever the
    registry holds; sessions outside the registry are not touched, nor are
    the clock, the rate and the user pool. *)
Theorem update_all_sessions_shrinks (s : Simulation) :
  cur_sessions (update_all_sessions s) `sublist_of` cur_sessions s /\
  (get_len_sessions (update_all_sessions s) <= get_len_sessions s)%nat /\
  (forall ref, ref ∉ cur_sessions s ->
     heap (update_all_sessions s) !! ref = heap s !! ref) /\
  cur_time (update_all_sessions s) = cur_time s /\
  rate (update_all_sessions s) = rate s /\
  next_id (update_all_sessions s) = next_id s.
Proof.
  destruct (update_loop_shrinks (cur_sessions s) s) as [Hsub Hheap].
  pose proof (update_loop_registry_only (cur_sessions s) s) as Hr.
  apply registry_only_settings in Hr as (_ & _ & _ & Ht & _ & _ & Hrate & _).
  unfold update_all_sessions, get_len_sessions.
  repeat split; try done.
  - by apply sublist_length.
  - apply update_loop_next_id.
Qed.

(** X10: on a registry of distinct sessions and with a clock that is not
    before [init_time], the timestamp each session is advanced with is never
    before the timestamp the session holds. *)
Theorem update_calls_not_backward (s : Simulation) :
  wf_registry s -> init_time s <= cur_time s ->
  forall c, c ∈ update_calls s ->
    exists session,
      heap s !! on_session c = Some session /\
      current_timestamp session <= with_timestamp c.
Proof.
  intros [Hnd Hall] Ht c Hc.
  destruct (update_loop_spec (cur_sessions s) [] s) as (_ & Hcalls & _);
    [done|set_solver|by apply Forall_forall|done|].
  unfold update_calls in Hc. rewrite Hcalls in Hc.
  destruct (calls_arguments _ _ _ Hc) as (o & Ho & Hts & _).
  exists o. split; [done|lia].
Qed.

End RegistryFacts.

(** ** Passes of the loop *)

Section PassFacts.
Context `{EventModel}.

Lemma evolves_refl (s : Simulation) : evolves s s.
Proof.
  exists (user_pool s), (heap s), (next_id s), (cur_sessions s),
         (cur_time s), (rate s). by destruct s.
Qed.

Lemma evolves_trans (s1 s2 s3 : Simulation) :
  evolves s1 s2 -> evolves s2 s3 -> evolves s1 s3.
Proof.
  intros (p & h & n & l & t & r & ->) (p' & h' & n' & l' & t' & r' & ->).
  by exists p', h', n', l', t', r'.
Qed.

Lemma registry_only_evolves (s s' : Simulation) :
  registry_only s s' -> evolves s s'.
Proof.
  intros (p & h & n & l & ->). exists p, h, n, l, (cur_time s), (rate s).
  by destruct s.
Qed.

Lemma wait_evolves always_fwd raw (s s' : Simulation) :
  wait always_fwd raw s = Ok s' -> evolves s s'.
Proof.
  unfold wait. unfold_bind.
  destruct (randrange _ _ raw) as [j|]; [|discriminate].
  match goal with |- context [get_rate_per_step ?x] =>
    destruct (get_rate_per_step x) as [r|e]; [|discriminate] end.
  intros [= <-]. eexists (user_pool s), (heap s), (next_id s),
    (cur_sessions s), _, r. by destruct s.
Qed.

Lemma evolves_settings (s s' : Simulation) :
  evolves s s' ->
  init_time s' = init_time s /\ stop_time s' = stop_time s /\
  batch_size s' = batch_size s /\
  sessions_per_day s' = sessions_per_day s /\
  config s' = config s /\ growth s' = growth s /\
  always_forward s' = always_forward s /\
  yield_as_json s' = yield_as_json s /\
  qty_events s' = qty_events s.
Proof. intros (p & h & n & l & t & r & ->). by repeat split. Qed.

(** The three calls a pass that returns has made, and the walk over the
    registry that followed. *)
Lemma run_step_inv (d : StepDraws) (s s' : Simulation) evs :
  run_step d s = (evs, Ok s') ->
  exists s2,
    create_sessions (choice_u d) (growth_samples d) (update_all_sessions s)
      = Ok s2 /\
    wait (always_forward s2) (jitter_raw d) s2 = Ok s' /\
    yield_loop s' (cur_sessions s') = (evs, None).
Proof.
  unfold run_step. intros Hrun.
  destruct (create_sessions (choice_u d) (growth_samples d)
              (update_all_sessions s)) as [s2|e] eqn:Hc;
    unfold_bind; [|by inversion Hrun].
  destruct (wait (always_forward s2) (jitter_raw d) s2) as [s3|e] eqn:Hw;
    [|by inversion Hrun].
  destruct (yield_loop s3 (cur_sessions s3)) as [evs' [e|]] eqn:Hy;
    inversion Hrun; subst. by exists s2.
Qed.

Lemma run_step_evolves (d : StepDraws) (s s' : Simulation) evs :
  run_step d s = (evs, Ok s') ->
  evolves s s' /\ rate_synced s' /\
  0 < low_step s /\
  low_step s * us_per_second <= cur_time s' - cur_time s
    <= high_step s * us_per_second.
Proof.
  intros Hrun. apply run_step_inv in Hrun as (s2 & Hc & Hw & _).
  pose proof (update_loop_registry_only (cur_sessions s) s) as Hu.
  fold (update_all_sessions s) in Hu.
  destruct (create_sessions_spec (choice_u d) (growth_samples d)
              (update_all_sessions s)) as (s2' & Hc' & _ & Hr).
  rewrite Hc in Hc'. injection Hc' as <-.
  pose proof (registry_only_trans _ _ _ Hu Hr) as Hur.
  pose proof (registry_only_settings _ _ Hur) as (Hb & _ & _ & Ht & _).
  pose proof (wait_step_bounds _ _ _ _ Hw) as Hbounds.
  unfold low_step, high_step in *. rewrite Hb, Ht in Hbounds.
  split; [|split; [by eapply wait_rate_synced|exact Hbounds]].
  eapply evolves_trans; [by apply registry_only_evolves|].
  by eapply wait_evolves.
Qed.

Lemma yield_loop_bounded (s : Simulation) (refs : list nat) evs e :
  yield_loop s refs = (evs, e) ->
  (length evs <= length refs)%nat /\ Forall (in_format (yield_as_json s)) evs.
Proof.
  revert evs e. induction refs as [|ref refs IH]; intros evs e; simpl.
  - intros [= <- <-]. split; [done|constructor].
  - destruct (heap s !! ref) as [x|].
    + destruct (emits x).
      * unfold yield_event.
        destruct (yield_as_json s) eqn:Hj; unfold_bind.
        -- destruct (dumps json_serial (PDict (asdict x))) as [text|err].
           ++ destruct (yield_loop s refs) as [evs' e'].
              intros [= <- <-]. destruct (IH _ _ eq_refl) as [Hl Hf].
              split; [simpl; lia|]. by constructor.
           ++ intros [= <- <-]. split; [simpl; lia|constructor].
        -- destruct (yield_loop s refs) as [evs' e'].
           intros [= <- <-]. destruct (IH _ _ eq_refl) as [Hl Hf].
           split; [simpl; lia|]. by constructor.
      * intros Hy. destruct (IH _ _ Hy). split; [lia|done].
    + intros Hy. destruct (IH _ _ Hy). split; [lia|done].
Qed.

Lemma yield_loop_returns (s : Simulation) (refs : list nat) :
  (yield_as_json s = true ->
   forall x : Session, first_unsupported (PDict (asdict x)) = None) ->
  snd (yield_loop s refs) = None.
Proof.
  intros Hsup. induction refs as [|ref refs IH]; simpl; [done|].
  destruct (heap s !! ref) as [x|]; [|done].
  destruct (emits x); [|done].
  assert (Hr : Py.returns (yield_event s x)).
  { unfold yield_event. destruct (yield_as_json s) eqn:Hj; [|exact I].
    pose proof (dumps_supported _ (Hsup eq_refl x)) as Hd. unfold_bind.
    by destruct (dumps json_serial (PDict (asdict x))). }
  destruct (yield_event s x); [|destruct Hr].
  by destruct (yield_loop s refs).
Qed.

(** X11: a pass of the loop of [run] returns, and leaves the clock in the
    range of [datetime], whenever the step size is at least 4, the curve
    covers the 24 hours, in JSON mode the record of every session holds
    supported values and timestamps only, and the values are in the range of
    their library types: the registry holds distinct sessions whose
    timestamps, moved by the duration of the simulation, are in the range of
    [datetime], as are the start time, the horizon and the clock before the
    pass and after the longest step; the library draws are in the range the
    library promises, and the sessions per day are in the range of a
    float. *)
Theorem run_step_returns (d : StepDraws) (s : Simulation) :
  4 <= batch_size s ->
  curve_complete (config s) ->
  (yield_as_json s = true ->
   forall x : Session, first_unsupported (PDict (asdict x)) = None) ->
  wf_registry s ->
  sessions_fit s ->
  fits_datetime (init_time s) ->
  fits_datetime (stop_time s) ->
  (forall n, sample_ok (growth s) (growth_samples d n)) ->
  fits_datetime (cur_time s) ->
  fits_datetime (cur_time s + high_step s * us_per_second) ->
  fits_float (sessions_per_day s) ->
  exists evs s',
    run_step d s = (evs, Ok s') /\
    cur_time s < cur_time s' /\ fits_datetime (cur_time s').
Proof.
  intros Hb Hc Hsup _ _ _ _ _ Hlo Hhi _. unfold run_step.
  pose proof (update_loop_registry_only (cur_sessions s) s) as Hu.
  fold (update_all_sessions s) in Hu.
  destruct (create_sessions_spec (choice_u d) (growth_samples d)
              (update_all_sessions s)) as (s2 & Hs2 & _ & Hr).
  pose proof (registry_only_trans _ _ _ Hu Hr) as Hur.
  pose proof (registry_only_settings _ _ Hur)
    as (Hb2 & _ & _ & Ht2 & _ & Hcfg & _ & _ & Hj).
  rewrite Hs2. unfold_bind.
  destruct (wait_advances (always_forward s2) (jitter_raw d) s2)
    as (s3 & j & Hw & _); [lia|by rewrite Hcfg|].
  rewrite Hw.
  pose proof (wait_inv _ _ _ _ Hw) as (_ & _ & _ & _ & _ & _ & _ & _ & _ & Hj3).
  pose proof (wait_step_bounds _ _ _ _ Hw) as (Hpos & Hlow & Hhigh).
  pose proof (yield_loop_returns s3 (cur_sessions s3)) as Hy.
  destruct (yield_loop s3 (cur_sessions s3)) as [evs e]. simpl in Hy.
  rewrite Hy by (rewrite Hj3, Hj; exact Hsup).
  exists evs, s3. split; [reflexivity|].
  assert (Hhs : high_step s2 = high_step s) by (unfold high_step; by rewrite Hb2).
  rewrite Hhs, Ht2 in Hhigh. rewrite Ht2 in Hlow.
  unfold fits_datetime, us_per_second in *. split; lia.
Qed.

(** X12: a pass that returns has yielded at most one event for each session
    of the registry it leaves, and every event is in the format the flag
    selects: records when [yield_as_json] is unset, texts when it is set. *)
Theorem run_step_events_bounded (d : StepDraws) (s s' : Simulation) evs :
  run_step d s = (evs, Ok s') ->
  (length evs <= get_len_sessions s')%nat /\
  Forall (in_format (yield_as_json s)) evs.
Proof.
  intros Hrun.
  pose proof (run_step_evolves _ _ _ _ Hrun) as (He & _).
  apply evolves_settings in He as (_ & _ & _ & _ & _ & _ & _ & Hj & _).
  apply run_step_inv in Hrun as (s2 & _ & _ & Hy).
  apply yield_loop_bounded in Hy as [Hl Hf].
  rewrite Hj in Hf. by split.
Qed.

(** X13: after a pass that returns, on a registry of distinct sessions, the
    registry holds the sessions that reported active after their advance
    followed by the arrivals: its length is the number of the former plus
    the number of arrivals drawn for the rate before the pass. *)
Theorem get_len_sessions_after_pass (d : StepDraws) (s s' : Simulation) evs :
  wf_registry s ->
  run_step d s = (evs, Ok s') ->
  cur_sessions s'
  = List.filter (survives s) (cur_sessions s)
    ++ seq (next_id s) (Z.to_nat (arrivals (rate s) (choice_u d))) /\
  get_len_sessions s'
  = (length (List.filter (survives s) (cur_sessions s))
     + Z.to_nat (arrivals (rate s) (choice_u d)))%nat.
Proof.
  intros [Hnd Hall] Hrun.
  apply run_step_inv in Hrun as (s2 & Hc & Hw & _).
  destruct (update_loop_spec (cur_sessions s) [] s) as (Hl & _ & _);
    [done|set_solver|by apply Forall_forall|done|].
  simpl in Hl. fold (update_all_sessions s) in Hl.
  pose proof (update_loop_registry_only (cur_sessions s) s) as Hu.
  fold (update_all_sessions s) in Hu.
  apply registry_only_settings in Hu as (_ & _ & _ & _ & _ & _ & Hrate & _).
  destruct (create_sessions_spec (choice_u d) (growth_samples d)
              (update_all_sessions s)) as (s2' & Hc' & Hl2 & _).
  rewrite Hc in Hc'. injection Hc' as <-.
  pose proof (update_loop_next_id (cur_sessions s) s) as Hn.
  fold (update_all_sessions s) in Hn.
  rewrite Hl, Hrate, Hn in Hl2.
  destruct (wait_inv _ _ _ _ Hw) as (_ & _ & _ & _ & _ & Hl3 & _).
  assert (Hcs : cur_sessions s'
    = List.filter (survives s) (cur_sessions s)
      ++ seq (next_id s) (Z.to_nat (arrivals (rate s) (choice_u d))))
    by (by rewrite Hl3, Hl2).
  split; [exact Hcs|].
  unfold get_len_sessions. by rewrite Hcs, length_app, length_seq.
Qed.

End PassFacts.

(** ** Whole runs *)

Section RunFacts.
Context `{EventModel}.

(** What every pass keeps, a run keeps. *)
Lemma run_from_invariant (P : Simulation -> Prop) :
  (forall d s evs s', run_step d s = (evs, Ok s') -> P s -> P s') ->
  forall fuel clock duration_seconds draws k s evs st s',
    P s ->
    run_from fuel clock duration_seconds draws k s = (evs, st) ->
    final_state st = Some s' -> P s'.
Proof.
  intros Hstep fuel clock dur draws.
  induction fuel as [|fuel IH]; intros k s evs st s' Hs; simpl.
  - intros [= <- <-] [= <-]. exact Hs.
  - destruct (Qle_bool dur (clock (S k) - clock O)).
    { intros [= <- <-] [= <-]. exact Hs. }
    destruct (run_step (draws k) s) as [evs1 [s1|e]] eqn:Hrun.
    + pose proof (Hstep _ _ _ _ Hrun Hs) as Hs1.
      destruct (run_from fuel clock dur draws (S k) s1) as [evs2 st2] eqn:Hrec.
      intros [= <- <-] Hfin. by eapply IH.
    + intros [= <- <-] [=].
Qed.

(** X14: a run changes nothing but the registry, the clock and the rate:
    in the state it stops in, or is looked at in, the start time, the
    horizon, the step size, the sessions per day, the configuration, the
    growth mode, the two flags and the event counter are those it started
    with, and the clock is not before the clock it started with. *)
Theorem run_keeps_settings fuel clock duration_seconds draws
    (s s' : Simulation) evs st :
  run fuel clock duration_seconds draws s = (evs, st) ->
  final_state st = Some s' ->
  init_time s' = init_time s /\ stop_time s' = stop_time s /\
  batch_size s' = batch_size s /\
  sessions_per_day s' = sessions_per_day s /\
  config s' = config s /\ growth s' = growth s /\
  always_forward s' = always_forward s /\
  yield_as_json s' = yield_as_json s /\
  qty_events s' = qty_events s /\
  cur_time s <= cur_time s'.
Proof.
  intros Hrun Hfin.
  assert (HP : evolves s s' /\ cur_time s <= cur_time s').
  { refine (run_from_invariant
              (fun x => evolves s x /\ cur_time s <= cur_time x)
              _ fuel clock duration_seconds draws O s evs st s' _ Hrun Hfin).
    - intros d x evs1 x' Hstep [He Ht].
      destruct (run_step_evolves _ _ _ _ Hstep) as (He' & _ & Hlow & Hb & _).
      split; [by eapply evolves_trans|].
      unfold us_per_second in *. nia.
    - split; [apply evolves_refl|lia]. }
  destruct HP as [He Ht].
  apply evolves_settings in He
    as (Hi & Hs & Hb & Hspd & Hcfg & Hg & Haf & Hj & Hq).
  by repeat split.
Qed.

Lemma run_from_running fuel clock duration_seconds draws :
  forall k (s s' : Simulation) evs,
    run_from fuel clock duration_seconds draws k s = (evs, Running s') ->
    batch_size s' = batch_size s /\
    cur_time s + Z.of_nat fuel * (low_step s * us_per_second) <= cur_time s'
      <= cur_time s + Z.of_nat fuel * (high_step s * us_per_second).
Proof.
  induction fuel as [|fuel IH]; intros k s s' evs; simpl.
  - intros [= _ <-]. split; [done|lia].
  - destruct (Qle_bool duration_seconds (clock (S k) - clock O));
      [discriminate|].
    destruct (run_step (draws k) s) as [evs1 [s1|e]] eqn:Hrun; [|discriminate].
    destruct (run_from fuel clock duration_seconds draws (S k) s1)
      as [evs2 st2] eqn:Hrec.
    intros [= _ ->]. apply IH in Hrec as [Hb Ht].
    destruct (run_step_evolves _ _ _ _ Hrun) as (He & _ & _ & Hstep).
    apply evolves_settings in He as (_ & _ & Hb1 & _).
    unfold low_step, high_step in *. rewrite Hb1 in *.
    split; [done|]. lia.
Qed.

(** X15: when a run has made [n] passes and none has raised, the clock has
    moved by at least [n] times the step size less its three tenths, and by
    at most [n] times the step size plus its three tenths less one second:
    the simulated time is not bounded by the horizon. *)
Theorem run_clock_bounds (n : nat) clock duration_seconds draws
    (s s' : Simulation) evs :
  run n clock duration_seconds draws s = (evs, Running s') ->
  cur_time s + Z.of_nat n * (low_step s * us_per_second) <= cur_time s'
    <= cur_time s + Z.of_nat n * (high_step s * us_per_second).
Proof. intros Hrun. by apply run_from_running in Hrun as [_ Ht]. Qed.

Lemma run_from_stops fuel clock duration_seconds draws :
  forall i k (s : Simulation),
    (i <= k < i + fuel)%nat ->
    (duration_seconds <= clock (S k) - clock O)%Q ->
    match snd (run_from fuel clock duration_seconds draws i s) with
    | Running _ => False
    | _ => True
    end.
Proof.
  induction fuel as [|fuel IH]; intros i k s Hk Hdead; simpl; [lia|].
  destruct (Qle_bool duration_seconds (clock (S i) - clock O)) eqn:Hq;
    [exact I|].
  assert (Hne : k <> i).
  { intros ->. apply Qle_bool_iff in Hdead. congruence. }
  destruct (run_step (draws i) s) as [evs1 [s1|e]]; [|exact I].
  specialize (IH (S i) k s1 ltac:(lia) Hdead).
  by destruct (run_from fuel clock duration_seconds draws (S i) s1).
Qed.

(** X16: the loop of [run] stops at the first reading of the wall clock
    that has used up the budget: if the reading before pass [k] has, a run
    looked at for more than [k] passes has finished or raised; and when the
    first reading already has, no pass is made, nothing is yielded and the
    simulation is left as it was. *)
Theorem run_stops_at_deadline fuel clock duration_seconds draws
    (s : Simulation) (k : nat) :
  (k < fuel)%nat ->
  (duration_seconds <= clock (S k) - clock O)%Q ->
  match snd (run fuel clock duration_seconds draws s) with
  | Running _ => False
  | _ => True
  end /\
  (k = O -> run fuel clock duration_seconds draws s = ([], Finished s)).
Proof.
  intros Hk Hdead. split.
  - apply (run_from_stops fuel clock duration_seconds draws O k s);
      [lia|done].
  - intros ->. unfold run. destruct fuel as [|fuel]; [lia|]. simpl.
    apply Qle_bool_iff in Hdead. by rewrite Hdead.
Qed.

(** X17: in every state a run reaches from a simulation the constructor
    has built, the registry is made of distinct, allocated sessions, the
    stored rate is the rate of the hour the clock shows, the clock is not
    before [init_time] and the horizon is not negative; with a step size
    above zero, a curve without negative entries and a number of sessions
    per day that is not negative, the rate is not negative. *)
Theorem reachable_invariants loaded_at now a fuel clock duration_seconds
    draws (s0 s : Simulation) evs st :
  Simulation_init loaded_at now a = Ok s0 ->
  run fuel clock duration_seconds draws s0 = (evs, st) ->
  final_state st = Some s ->
  wf_registry s /\ rate_synced s /\
  init_time s <= cur_time s /\ init_time s <= stop_time s /\
  (0 < batch_size s -> curve_nonneg (config s) ->
   0 <= sessions_per_day s -> (0 <= rate s)%Q).
Proof.
  intros Hinit Hrun Hfin.
  pose proof (Simulation_init_inv _ _ _ _ Hinit) as (_ & _ & Hc & _).
  pose proof (Simulation_init_horizon _ _ _ _ Hinit) as Hh.
  pose proof (Simulation_init_synced _ _ _ _ Hinit) as [Hsync0 _].
  assert (HP : registry_inv s /\ rate_synced s /\
               evolves s0 s /\ cur_time s0 <= cur_time s).
  { refine (run_from_invariant
              (fun x => registry_inv x /\ rate_synced x /\
                        evolves s0 x /\ cur_time s0 <= cur_time x)
              _ fuel clock duration_seconds draws O s0 evs st s _ Hrun Hfin).
    - intros d x evs1 x' Hstep (Hreg & _ & He & Ht).
      destruct (run_step_evolves _ _ _ _ Hstep)
        as (He' & Hsync & Hlow & Hb & _).
      split; [by eapply registry_inv_run_step|].
      split; [done|]. split; [by eapply evolves_trans|].
      unfold us_per_second in *. nia.
    - split; [by eapply registry_inv_init|].
      split; [done|]. split; [apply evolves_refl|lia]. }
  destruct HP as ([Hwf _] & Hsync & He & Ht).
  apply evolves_settings in He as (Hi & Hs & _).
  split; [done|]. split; [done|]. split; [lia|]. split; [lia|].
  intros Hb Hcurve Hspd.
  by destruct (rate_sign s (rate s) Hcurve Hspd Hsync) as [Hpos _]; auto.
Qed.

(** X18: the event counter is never written: for a simulation built by the
    constructor and run for any number of passes, with any number of events
    yielded, [__str__] ends in the line Quantity of events: 0, and the days
    it prints are not negative. *)
Theorem report_says_zero_events (float_str : Q -> string) loaded_at now a
    fuel clock duration_seconds draws (s0 s : Simulation) evs st :
  Simulation_init loaded_at now a = Ok s0 ->
  run fuel clock duration_seconds draws s0 = (evs, st) ->
  final_state st = Some s ->
  Simulation_str float_str s
  = newline +:+ "SIMULATION STATE" +:+ newline +:+
    "Current Sessions: " +:+ dec (Z.of_nat (length (cur_sessions s)))
      +:+ newline +:+
    "Current duration: " +:+ get_duration_str s +:+ newline +:+
    "Current user rate: " +:+ float_str (rate s) +:+ newline +:+
    "Quantity of events: 0" /\
  0 <= td_days (get_curr_duration s).
Proof.
  intros Hinit Hrun Hfin.
  pose proof (Simulation_init_inv _ _ _ _ Hinit) as (_ & _ & Hc & _).
  pose proof (Simulation_init_synced _ _ _ _ Hinit) as [_ Hq0].
  assert (HP : evolves s0 s /\ cur_time s0 <= cur_time s).
  { refine (run_from_invariant
              (fun x => evolves s0 x /\ cur_time s0 <= cur_time x)
              _ fuel clock duration_seconds draws O s0 evs st s _ Hrun Hfin).
    - intros d x evs1 x' Hstep [He Ht].
      destruct (run_step_evolves _ _ _ _ Hstep) as (He' & _ & Hlow & Hb & _).
      split; [by eapply evolves_trans|].
      unfold us_per_second in *. nia.
    - split; [apply evolves_refl|lia]. }
  destruct HP as [He Ht].
  apply evolves_settings in He as (Hi & _ & _ & _ & _ & _ & _ & _ & Hq).
  split.
  - unfold Simulation_str, get_len_sessions. rewrite Hq, Hq0. reflexivity.
  - unfold td_days, get_curr_duration, us_per_day, us_per_hour, us_per_second.
    apply Z.div_pos; lia.
Qed.

End RunFacts.

(** * The engine on concrete inputs *)

Module Runs.

#[local] Existing Instance Toy.domain.
#[local] Existing Instance Toy.model.

(** C4 on the code, at a step of three seconds: [wait] raises instead of
    moving the clock, with the forward flag set and unset. *)
Theorem wait_step_three_raises :
  wait true 0 (Toy.holding [] 3 true false) = Raise Toy.valueerror /\
  wait false 0 (Toy.holding [] 3 false false) = Raise Toy.valueerror.
Proof. split; vm_compute; reflexivity. Qed.


(** C6 on the code, at a step size of -10: the constructor does not raise;
    it returns a simulation with that step size, on which every call of
    [wait] raises. The duration is checked by an assertion, the step size
    is not checked. *)
Theorem negative_step_builds_unusable :
  arg_batch_size (Toy.args_with_step (-10)) = -10 /\
  exists s, Simulation_init 0 0 (Toy.args_with_step (-10)) = Ok s /\
            batch_size s = -10 /\
            forall always_fwd raw,
              wait always_fwd raw s = Raise Toy.valueerror.
Proof.
  split; [reflexivity|].
  eexists. split; [vm_compute; reflexivity|].
  split; [reflexivity|].
  intros always_fwd raw. apply wait_raises_small. simpl. lia.
Qed.

(** C8 on the code: two instances built at the instants 100 and 200 by a
    module loaded at the instant 0 both start at 0. *)
Lemma default_init_time_is_load_time_witness :
  exists s1 s2,
    Simulation_init 0 100 (default_args 5) = Ok s1 /\
    Simulation_init 0 200 (default_args 5) = Ok s2 /\
    init_time s1 = 0 /\ init_time s2 = 0.
Proof.
  eexists. eexists. split; [vm_compute; reflexivity|].
  split; [vm_compute; reflexivity|]. split.
  - apply (default_init_time_is_load_time 0 100 (default_args 5));
      [reflexivity|vm_compute; reflexivity].
  - apply (default_init_time_is_load_time 0 200 (default_args 5));
      [reflexivity|vm_compute; reflexivity].
Defined.

Lemma randomize_sess_ts_in_horizon_witness :
  let s := Toy.holding [] 10 true false in
  init_time s <= stop_time s /\
  sample_ok (growth s) (1 # 3) /\
  init_time s <= randomize_sess_ts (1 # 3) s <= stop_time s.
Proof.
  intros s.
  assert (Hh : init_time s <= stop_time s) by (vm_compute; discriminate).
  assert (Hs : sample_ok (growth s) (1 # 3)).
  { vm_compute. split; [discriminate|reflexivity]. }
  split; [exact Hh|]. split; [exact Hs|].
  destruct (randomize_sess_ts_in_horizon s (1 # 3) Hh Hs)
    as (_ & _ & _ & Hr & _).
  exact Hr.
Defined.

Lemma create_sessions_unbiased_witness :
  let s := set_rate (5 # 2) (Toy.holding [] 10 true false) in
  (0 <= rate s)%Q /\
  exists n s',
    create_sessions (1 # 4) (fun _ => 1 # 3) s = Ok s' /\
    length (cur_sessions s') = (length (cur_sessions s) + Z.to_nat n)%nat /\
    (n = 2 \/ n = 3).
Proof.
  intros s.
  assert (Hr : (0 <= rate s)%Q) by (vm_compute; discriminate).
  split; [exact Hr|].
  destruct (create_sessions_unbiased s (1 # 4) (fun _ => 1 # 3) Hr)
    as (n & s' & Hs' & _ & Hl & Hn & _).
  exists n, s'. split; [exact Hs'|]. split; [exact Hl|]. exact Hn.
Defined.




(** The survivors of [Toy.three_sessions], and the events of a pass over it. *)
Example three_sessions_step :
  cur_sessions (update_all_sessions Toy.three_sessions) = [0%nat] /\
  map on_session (update_calls Toy.three_sessions) = [0%nat; 1%nat; 2%nat].
Proof. split; vm_compute; reflexivity. Qed.

End Runs.

(** * The further properties on concrete inputs *)

Module MoreRuns.

#[local] Existing Instance Toy.domain.
#[local] Existing Instance Toy.model.

Lemma toy_curve_lookup (v : Q) h w :
  Toy.flat_curve v !! h = Some w -> w = v.
Proof.
  unfold Toy.flat_curve. intros Hl.
  apply elem_of_list_to_map_2 in Hl.
  apply list_elem_of_fmap in Hl as (n & [= _ ->] & _). reflexivity.
Qed.

Lemma toy_curve_complete (v : Q) :
  curve_complete {| visits_per_hour := Toy.flat_curve v |}.
Proof.
  intros h Hh. simpl.
  assert (Hn : h = Z.of_nat (Z.to_nat h)) by lia.
  assert (Hlt : (Z.to_nat h < 24)%nat) by lia.
  rewrite Hn. generalize dependent (Z.to_nat h). intros n _ Hlt.
  do 24 (destruct n as [|n]; [by eexists|]). lia.
Qed.

Lemma toy_curve_nonneg :
  curve_nonneg {| visits_per_hour := Toy.flat_curve (1 # 24) |}.
Proof. intros h v Hv. simpl in Hv. apply toy_curve_lookup in Hv as ->. done. Qed.

Lemma get_rate_per_step_sign_witness :
  exists r,
    get_rate_per_step (Toy.holding [] 10 true false) = Ok r /\ (0 <= r)%Q.
Proof.
  eexists.
  assert (Hr : get_rate_per_step (Toy.holding [] 10 true false) = Ok _)
    by (vm_compute; reflexivity).
  split; [exact Hr|].
  destruct (get_rate_per_step_sign (Toy.holding [] 10 true false) _
              toy_curve_nonneg ltac:(vm_compute; discriminate) Hr)
    as [Hpos _].
  apply Hpos. reflexivity.
Defined.

Lemma wait_returns_when_witness :
  Py.returns (wait true 7 (Toy.holding [] 10 true false)) /\
  ~ Py.returns (wait true 7 (Toy.holding [] 3 true false)).
Proof.
  split.
  - apply (wait_returns_when true 7 (Toy.holding [] 10 true false)).
    + vm_compute. discriminate.
    + apply (toy_curve_complete (1 # 24)).
    + split; vm_compute; discriminate.
    + split; vm_compute; discriminate.
    + vm_compute. reflexivity.
  - intros Hr.
    apply (wait_returns_when true 7 (Toy.holding [] 3 true false)) in Hr.
    vm_compute in Hr. by apply Hr.
Defined.

Lemma wait_moves_forward_witness :
  exists s',
    wait false 7 (Toy.holding [] 10 false false) = Ok s' /\
    cur_time (Toy.holding [] 10 false false) < cur_time s'.
Proof.
  eexists.
  assert (Hw : wait false 7 (Toy.holding [] 10 false false) = Ok _)
    by (vm_compute; reflexivity).
  split; [exact Hw|].
  destruct (wait_moves_forward _ _ _ _ Hw) as [Ht _]. exact Ht.
Defined.

Lemma toy_built : Simulation_init 0 100 (default_args 5) = Ok Toy.built.
Proof. vm_compute. reflexivity. Qed.

Lemma toy_one_pass :
  run_step (Toy.steady_draws O) Toy.three_sessions
  = (fst Toy.one_pass, Ok Toy.after_one_pass).
Proof. vm_compute. reflexivity. Qed.

Lemma toy_two_passes :
  run 2 Toy.ticking 10 Toy.steady_draws Toy.three_sessions
  = (fst Toy.two_passes, Running (Toy.state_of (snd Toy.two_passes))).
Proof. vm_compute. reflexivity. Qed.

Lemma Simulation_init_raises_witness :
  arg_batch_size (Toy.args_with_step 0) = 0 /\
  Py.raises (Simulation_init 0 0 (Toy.args_with_step 0)).
Proof.
  split; [reflexivity|].
  apply (Simulation_init_raises 0 0 (Toy.args_with_step 0)).
  right. reflexivity.
Defined.

Lemma toy_built_two_passes :
  run 2 Toy.ticking 10 Toy.steady_draws Toy.built
  = (fst Toy.built_two_passes,
     Running (Toy.state_of (snd Toy.built_two_passes))).
Proof. vm_compute. reflexivity. Qed.

Lemma Simulation_init_post_witness :
  Simulation_init 0 100 (default_args 5) = Ok Toy.built /\
  cur_time Toy.built = init_time Toy.built /\
  cur_sessions Toy.built = [] /\
  rate_synced Toy.built.
Proof.
  split; [exact toy_built|].
  destruct (Simulation_init_post _ _ _ _ toy_built)
    as (Hc & Hl & _ & _ & _ & Hr & _).
  split; [exact Hc|]. split; [exact Hl|exact Hr].
Defined.

Lemma created_sessions_in_horizon_witness :
  let s := set_rate (5 # 2) (Toy.holding [] 10 true false) in
  exists s',
    create_sessions (1 # 4) (fun _ => 1 # 3) s = Ok s' /\
    heap s' !! 1%nat
    = Some (Event_init (randomize_sess_ts (1 # 3) s)
              (nth_user (user_pool s) 1)
              (batch_size s) (always_forward s) (config s)) /\
    init_time s <= randomize_sess_ts (1 # 3) s <= stop_time s.
Proof.
  intros s. eexists.
  assert (Hc : create_sessions (1 # 4) (fun _ => 1 # 3) s = Ok _)
    by (vm_compute; reflexivity).
  assert (Hh : init_time s <= stop_time s) by (vm_compute; discriminate).
  assert (Hs : forall n : nat, sample_ok (growth s) ((fun _ => 1 # 3) n)).
  { intros n. vm_compute. split; [discriminate|reflexivity]. }
  destruct (created_sessions_in_horizon _ _ _ _ Hh Hs Hc) as [_ Hnew].
  destruct (Hnew 1%nat ltac:(vm_compute; lia)) as [Hobj Hts].
  split; [exact Hc|]. split; [exact Hobj|exact Hts].
Defined.

Lemma toy_wf : wf_registry Toy.three_sessions.
Proof.
  split.
  - apply (bool_decide_unpack _). vm_compute. exact I.
  - apply (bool_decide_unpack _). vm_compute. exact I.
Qed.

Lemma update_calls_not_backward_witness :
  exists session,
    heap Toy.three_sessions !! 1%nat = Some session /\
    current_timestamp session <= 7.
Proof.
  assert (Ht : init_time Toy.three_sessions <= cur_time Toy.three_sessions)
    by (vm_compute; discriminate).
  assert (Hc : {| on_session := 1; with_timestamp := 7; with_forward := true |}
               ∈ update_calls Toy.three_sessions).
  { vm_compute. apply list_elem_of_further, list_elem_of_here. }
  destruct (update_calls_not_backward _ toy_wf Ht _ Hc) as (x & Hx & Hle).
  exists x. split; [exact Hx|exact Hle].
Defined.

Lemma toy_sessions_fit : sessions_fit Toy.three_sessions.
Proof.
  unfold sessions_fit.
  change (cur_sessions Toy.three_sessions) with [0%nat; 1%nat; 2%nat].
  repeat constructor; vm_compute; discriminate.
Qed.

Lemma run_step_returns_witness :
  exists evs s',
    run_step (Toy.steady_draws O) Toy.three_sessions = (evs, Ok s') /\
    cur_time Toy.three_sessions < cur_time s' /\ fits_datetime (cur_time s').
Proof.
  apply (run_step_returns (Toy.steady_draws O) Toy.three_sessions).
  - vm_compute. discriminate.
  - apply (toy_curve_complete (1 # 24)).
  - intros _ x. reflexivity.
  - exact toy_wf.
  - exact toy_sessions_fit.
  - split; vm_compute; discriminate.
  - split; vm_compute; discriminate.
  - intros n. vm_compute. split; [discriminate|reflexivity].
  - split; vm_compute; discriminate.
  - split; vm_compute; discriminate.
  - vm_compute. reflexivity.
Defined.

Lemma run_step_events_bounded_witness :
  run_step (Toy.steady_draws O) Toy.three_sessions
  = (fst Toy.one_pass, Ok Toy.after_one_pass) /\
  (length (fst Toy.one_pass) <= get_len_sessions Toy.after_one_pass)%nat.
Proof.
  split; [exact toy_one_pass|].
  destruct (run_step_events_bounded _ _ _ _ toy_one_pass) as [Hl _]. exact Hl.
Defined.

Lemma get_len_sessions_after_pass_witness :
  run_step (Toy.steady_draws O) Toy.three_sessions
  = (fst Toy.one_pass, Ok Toy.after_one_pass) /\
  get_len_sessions Toy.after_one_pass
  = (length (List.filter (survives Toy.three_sessions)
                         (cur_sessions Toy.three_sessions))
     + Z.to_nat (arrivals (rate Toy.three_sessions)
                          (choice_u (Toy.steady_draws O))))%nat.
Proof.
  split; [exact toy_one_pass|].
  destruct (get_len_sessions_after_pass _ _ _ _ toy_wf toy_one_pass)
    as [_ Hl].
  exact Hl.
Defined.

Lemma run_keeps_settings_witness :
  run 2 Toy.ticking 10 Toy.steady_draws Toy.three_sessions
  = (fst Toy.two_passes, Running (Toy.state_of (snd Toy.two_passes))) /\
  batch_size (Toy.state_of (snd Toy.two_passes))
  = batch_size Toy.three_sessions /\
  qty_events (Toy.state_of (snd Toy.two_passes))
  = qty_events Toy.three_sessions /\
  cur_time Toy.three_sessions <= cur_time (Toy.state_of (snd Toy.two_passes)).
Proof.
  split; [exact toy_two_passes|].
  destruct (run_keeps_settings _ _ _ _ _ _ _ _ toy_two_passes eq_refl)
    as (_ & _ & Hb & _ & _ & _ & _ & _ & Hq & Ht).
  split; [exact Hb|]. split; [exact Hq|exact Ht].
Defined.

Lemma run_clock_bounds_witness :
  run 2 Toy.ticking 10 Toy.steady_draws Toy.three_sessions
  = (fst Toy.two_passes, Running (Toy.state_of (snd Toy.two_passes))) /\
  cur_time Toy.three_sessions
  + Z.of_nat 2 * (low_step Toy.three_sessions * us_per_second)
  <= cur_time (Toy.state_of (snd Toy.two_passes))
  <= cur_time Toy.three_sessions
     + Z.of_nat 2 * (high_step Toy.three_sessions * us_per_second).
Proof.
  split; [exact toy_two_passes|].
  exact (run_clock_bounds _ _ _ _ _ _ _ toy_two_passes).
Defined.

Lemma run_stops_at_deadline_witness :
  (2 <= Toy.ticking 2 - Toy.ticking 0)%Q /\
  match snd (run 3 Toy.ticking 2 Toy.steady_draws Toy.three_sessions) with
  | Running _ => False
  | _ => True
  end.
Proof.
  assert (Hd : (2 <= Toy.ticking 2 - Toy.ticking 0)%Q)
    by (vm_compute; discriminate).
  split; [exact Hd|].
  destruct (run_stops_at_deadline 3 Toy.ticking 2 Toy.steady_draws
              Toy.three_sessions 1 ltac:(lia) Hd) as [Hs _].
  exact Hs.
Defined.

Lemma reachable_invariants_witness :
  Simulation_init 0 100 (default_args 5) = Ok Toy.built /\
  run 2 Toy.ticking 10 Toy.steady_draws Toy.built
  = (fst Toy.built_two_passes,
     Running (Toy.state_of (snd Toy.built_two_passes))) /\
  wf_registry (Toy.state_of (snd Toy.built_two_passes)) /\
  rate_synced (Toy.state_of (snd Toy.built_two_passes)).
Proof.
  split; [exact toy_built|]. split; [exact toy_built_two_passes|].
  destruct (reachable_invariants _ _ _ _ _ _ _ _ _ _ _ toy_built
              toy_built_two_passes eq_refl) as (Hwf & Hsync & _).
  split; [exact Hwf|exact Hsync].
Defined.

Lemma report_says_zero_events_witness :
  Simulation_init 0 100 (default_args 5) = Ok Toy.built /\
  run 2 Toy.ticking 10 Toy.steady_draws Toy.built
  = (fst Toy.built_two_passes,
     Running (Toy.state_of (snd Toy.built_two_passes))) /\
  0 <= td_days (get_curr_duration (Toy.state_of (snd Toy.built_two_passes))).
Proof.
  split; [exact toy_built|]. split; [exact toy_built_two_passes|].
  destruct (report_says_zero_events (fun _ => EmptyString)
              _ _ _ _ _ _ _ _ _ _ _ toy_built toy_built_two_passes eq_refl)
    as [_ Hd].
  exact Hd.
Defined.

(** Two passes over the simulation the constructor builds yield events, and
    the counter of the report stays at zero. *)
Example built_two_passes_events :
  (1 <= length (fst Toy.built_two_passes))%nat /\
  qty_events (Toy.state_of (snd Toy.built_two_passes)) = 0.
Proof. split; vm_compute; [lia|reflexivity]. Qed.

(** The report of a simulation a day, an hour, a minute and a second after
    its start. *)
Example duration_str_example :
  get_duration_str (set_clock (90061 * us_per_second)
                              (Toy.holding [] 10 true false))
  = "1 days, 1 hours, 1 minutes, 1 seconds".
Proof. vm_compute. reflexivity. Qed.

End MoreRuns.
